(** * Internship bot: the ingestion / dedup / filter pipeline

    A shallow embedding of the Python sources

      - [src/utils/helpers.py]      ([clean_text], [chunk_list],
                                     [is_it_related],
                                     [filter_last_24_hours])
      - [src/config.py]             ([IT_KEYWORDS], [LOCATION_FILTERS])
      - [src/models/internship.py]  ([Internship])
      - [src/utils/seen_jobs.py]    (the process-wide seen-jobs cache)
      - [src/fetchers/base_fetcher.py] ([BaseFetcher])
      - [src/fetchers/remotive_fetcher.py] ([RemotiveFetcher._parse_job])
      - [src/bot.py]                ([InternshipFinderBot])

    Conventions of the embedding.

    - A Python [str] is a Rocq [string]; every [ascii] stands for one code
      point below 256 (the URLs handled by the bot are ASCII).
    - A Python [set] of strings is a [gset string], a [dict] with string keys
      a [gmap string pyvalue].
    - Exceptions are explicit: a computation that may raise has type
      [pyresult A]; [try ... except] is [try_except].  The type [exn] stands
      for instances of [Exception].  What awaiting a fetcher's [fetch()]
      ends in is an [awaited A], which adds [asyncio.CancelledError], no
      instance of [Exception]; the other awaits are taken to end in a
      value or an instance of [Exception].
    - The writing of a local file is a [written]: it succeeds, fails
      before the file is opened, or breaks off after [open] has truncated
      the file.
    - Module-level and instance variables that the code mutates are fields of
      an explicit state record that every operation receives and returns.
    - What the outside world answers (the remote store's enumeration, whether
      a write succeeds, the clock) is an argument of the operation; what the
      code sends to the outside world is appended to the state's [trace].
    - Logging is not modelled. *)

From stdpp Require Import base gmap sets list strings.
From Stdlib Require Import ZArith Ascii Lia.

Local Open Scope Z_scope.

(* [set_solver] clears hypotheses that are not always there. *)
#[local] Set Warnings "-clear-no-such-hyp".

(** ** Python prelude *)

Module Py.

(** The exception classes the sources distinguish; all of them derive
    from [Exception]. *)
Inductive exn :=
| ValueError
| TypeError
| AttributeError
| OtherException.

Inductive pyresult (A : Type) :=
| Return (a : A)
| Raise (e : exn).
Arguments Return {A} a.
Arguments Raise {A} e.

(** Sequencing: the first exception raised ends the computation. *)
Definition bind {A B} (m : pyresult A) (k : A -> pyresult B) : pyresult B :=
  match m with
  | Return a => k a
  | Raise e => Raise e
  end.

(** [try: body except <classes accepted by catches>: handler] *)
Definition try_except {A} (body : pyresult A) (catches : exn -> bool)
    (handler : exn -> pyresult A) : pyresult A :=
  match body with
  | Return a => Return a
  | Raise e => if catches e then handler e else Raise e
  end.

(** [except Exception]: every [exn] is an instance of [Exception]. *)
Definition Exception (e : exn) : bool := true.

(** What awaiting a coroutine ends in: a value or an instance of
    [Exception] ([Finished]), or [asyncio.CancelledError], which derives
    from [BaseException] alone (the package requires Python 3.8) and so
    passes through [except Exception] and fails
    [isinstance(r, Exception)]. *)
Inductive awaited (A : Type) :=
| Finished (r : pyresult A)
| CancelledError.
Arguments Finished {A} r.
Arguments CancelledError {A}.

Definition cancelled {A} (t : awaited A) : bool :=
  match t with
  | Finished _ => false
  | CancelledError => true
  end.

(** [except (ValueError, TypeError)] *)
Definition ValueError_or_TypeError (e : exn) : bool :=
  match e with ValueError | TypeError => true | _ => false end.

(** *** Code that changes a state

    An [action S A] runs from a state, returns the state it leaves and
    either a value or the exception it raised: what was changed before an
    exception stays changed. *)
Definition action (S A : Type) : Type := S -> S * pyresult A.

Definition pure {S A} (a : A) : action S A := fun st => (st, Return a).

Definition raise {S A} (e : exn) : action S A := fun st => (st, Raise e).

Definition and_then {S A B} (m : action S A) (k : A -> action S B)
    : action S B :=
  fun st =>
    match m st with
    | (st', Return a) => k a st'
    | (st', Raise e) => (st', Raise e)
    end.

(** [try: body except <catches>: handler] *)
Definition try_ {S A} (body : action S A) (catches : exn -> bool)
    (handler : exn -> action S A) : action S A :=
  fun st =>
    match body st with
    | (st', Return a) => (st', Return a)
    | (st', Raise e) => if catches e then handler e st' else (st', Raise e)
    end.

(** Reading and changing the state. *)
Definition gets {S A} (f : S -> A) : action S A := fun st => (st, Return (f st)).
Definition modify {S} (f : S -> S) : action S unit := fun st => (f st, Return tt).

(** The outcome of a call to the outside world, or of a pure computation. *)
Definition outcome {S A} (r : pyresult A) : action S A := fun st => (st, r).

(** [for x in xs: body x] *)
Fixpoint for_each {S A} (xs : list A) (body : A -> action S unit)
    : action S unit :=
  match xs with
  | [] => pure tt
  | x :: rest => and_then (body x) (fun _ => for_each rest body)
  end.

(** The state an action leaves, and what it returns or raises. *)
Definition exec {S A} (m : action S A) (st : S) : S := fst (m st).
Definition result {S A} (m : action S A) (st : S) : pyresult A := snd (m st).

(** *** datetime

    [wall] is the wall-clock reading in microseconds, [tzinfo] the UTC
    offset in microseconds of an aware value and [None] for a naive one. *)
Record datetime := { wall : Z; tzinfo : option Z }.

#[export] Instance datetime_eq_dec : EqDecision datetime.
Proof. solve_decision. Defined.

Definition microsecond : Z := 1.
Definition second : Z := 1000000 * microsecond.
Definition minute : Z := 60 * second.
Definition hour : Z := 60 * minute.
Definition day : Z := 24 * hour.

(** [datetime.utcnow()] at UTC instant [clock]: naive. *)
Definition utcnow (clock : Z) : datetime := {| wall := clock; tzinfo := None |}.

(** [datetime.now(timezone.utc)] at UTC instant [clock]: aware. *)
Definition now_utc (clock : Z) : datetime := {| wall := clock; tzinfo := Some 0 |}.

(** [dt - timedelta] *)
Definition sub_timedelta (dt : datetime) (delta : Z) : datetime :=
  {| wall := wall dt - delta; tzinfo := tzinfo dt |}.

(** [dt.replace(tzinfo=timezone.utc)] *)
Definition replace_tzinfo_utc (dt : datetime) : datetime :=
  {| wall := wall dt; tzinfo := Some 0 |}.

(** The UTC instant of an aware value (a naive one read as UTC). *)
Definition instant (dt : datetime) : Z :=
  wall dt - default 0 (tzinfo dt).

(** [a >= b]; comparing a naive with an aware value is a [TypeError]. *)
Definition datetime_ge (a b : datetime) : pyresult bool :=
  match tzinfo a, tzinfo b with
  | Some oa, Some ob => Return (bool_decide (wall b - ob <= wall a - oa))
  | None, None => Return (bool_decide (wall b <= wall a))
  | _, _ => Raise TypeError
  end.

(** *** Values stored in dictionaries *)
Inductive pyvalue :=
| VNone
| VInt (n : Z)
| VStr (s : string)
| VDatetime (dt : datetime).

#[export] Instance pyvalue_eq_dec : EqDecision pyvalue.
Proof. solve_decision. Defined.

(** Truth value of an object, as tested by [if v], [not v], [v or d]. *)
Definition truthy (v : pyvalue) : bool :=
  match v with
  | VNone => false
  | VInt n => negb (n =? 0)
  | VStr s => negb (String.eqb s "")
  | VDatetime _ => true
  end.

Definition str_truthy (s : string) : bool := negb (String.eqb s "").

(** *** Strings *)

(** [ch.isspace()] for a code point below 256. *)
Definition isspace (c : ascii) : bool :=
  let n := N_of_ascii c in
  ((9 <=? n) && (n <=? 13) || (28 <=? n) && (n <=? 32)
   || (n =? 133) || (n =? 160))%N.

Fixpoint lstrip (s : string) : string :=
  match s with
  | String c s' => if isspace c then lstrip s' else s
  | EmptyString => EmptyString
  end.

Fixpoint rstrip (s : string) : string :=
  match s with
  | String c s' =>
      match rstrip s' with
      | EmptyString => if isspace c then EmptyString else String c EmptyString
      | r => String c r
      end
  | EmptyString => EmptyString
  end.

(** [s.strip()] *)
Definition strip (s : string) : string := rstrip (lstrip s).

(** [text.split()]: the maximal runs of non-whitespace characters.
    [word] is the run being read, in reverse. *)
Fixpoint split_ws (s : string) (word : list ascii) : list string :=
  let flush := match word with
               | [] => []
               | _ => [String.string_of_list_ascii (rev word)]
               end in
  match s with
  | EmptyString => flush
  | String c s' =>
      if isspace c then flush ++ split_ws s' [] else split_ws s' (c :: word)
  end.

(** [sep.join(parts)] *)
Fixpoint join (sep : string) (parts : list string) : string :=
  match parts with
  | [] => ""
  | [p] => p
  | p :: rest => p +:+ sep +:+ join sep rest
  end.

Fixpoint str_filter (keep : ascii -> bool) (s : string) : string :=
  match s with
  | EmptyString => EmptyString
  | String c s' =>
      if keep c then String c (str_filter keep s') else str_filter keep s'
  end.

Fixpoint str_map (f : ascii -> ascii) (s : string) : string :=
  match s with
  | EmptyString => EmptyString
  | String c s' => String (f c) (str_map f s')
  end.

(** [c.lower()] for a code point below 256: A-Z and the accented capitals
    192-222 (but the multiplication sign 215) move up by 32. *)
Definition lower_char (c : ascii) : ascii :=
  let n := N_of_ascii c in
  if ((65 <=? n) && (n <=? 90)
      || (192 <=? n) && (n <=? 222) && negb (n =? 215))%N
  then ascii_of_N (n + 32) else c.

(** [s.lower()] *)
Definition lower (s : string) : string := str_map lower_char s.

(** [s.startswith(p)] *)
Fixpoint startswith (p s : string) : bool :=
  match p, s with
  | EmptyString, _ => true
  | String a p', String b s' => bool_decide (a = b) && startswith p' s'
  | String _ _, EmptyString => false
  end.

(** [sub in s] *)
Fixpoint contains (sub s : string) : bool :=
  startswith sub s ||
  match s with
  | EmptyString => false
  | String _ s' => contains sub s'
  end.

(** *** range and slices *)

(** [range(start, stop, step)] as a list; a zero step is a [ValueError]. *)
Definition range (start stop step : Z) : pyresult (list Z) :=
  if step =? 0 then Raise ValueError
  else
    let len :=
      if 0 <? step
      then (if start <? stop then 1 + (stop - 1 - start) / step else 0)
      else (if stop <? start then 1 + (start - 1 - stop) / (- step) else 0) in
    Return ((fun k : nat => start + Z.of_nat k * step) <$> seq 0 (Z.to_nat len)).

(** An index of a slice, clamped to [0 .. n] (negative: from the end). *)
Definition clamp_index (n i : Z) : Z :=
  if i <? 0 then Z.max 0 (i + n) else Z.min i n.

(** [lst[lo:hi]] *)
Definition slice {A} (lst : list A) (lo hi : Z) : list A :=
  let n := Z.of_nat (length lst) in
  let lo' := clamp_index n lo in
  let hi' := clamp_index n hi in
  take (Z.to_nat (hi' - lo')) (drop (Z.to_nat lo') lst).

End Py.

Import Py.

Declare Scope pyresult_scope.
Delimit Scope pyresult_scope with py.
Bind Scope pyresult_scope with pyresult.
Declare Scope action_scope.
Delimit Scope action_scope with act.
Bind Scope action_scope with action.

Notation "x <- m ;; k" := (Py.bind m (fun x => k))
  (at level 100, m at next level, right associativity) : pyresult_scope.
Notation "x <- m ;; k" := (Py.and_then m (fun x => k))
  (at level 100, m at next level, right associativity) : action_scope.
Notation "m ;; k" := (Py.and_then m (fun _ => k))
  (at level 100, right associativity) : action_scope.

(** A Python [dict] with string keys. *)
Abbreviation dict := (gmap string pyvalue).

(** ** [src/utils/helpers.py] *)

Module helpers.

(** [clean_text]: collapse whitespace, drop control characters, strip. *)
Definition clean_text (text : string) : string :=
  if negb (str_truthy text) then ""
  else
    let text := join " " (split_ws text []) in
    let text :=
      str_filter
        (fun char =>
           (32 <=? N_of_ascii char)%N
           || bool_decide (char ∈ ["010"; "013"; "009"]%char))
        text in
    strip text.

(** [chunk_list]:
    [[lst[i:i + chunk_size] for i in range(0, len(lst), chunk_size)]] *)
Definition chunk_list {A} (lst : list A) (chunk_size : Z)
    : pyresult (list (list A)) :=
  (idx <- range 0 (Z.of_nat (length lst)) chunk_size ;;
   Return ((fun i => slice lst i (i + chunk_size)) <$> idx))%py.

(** [is_it_related] *)
Definition is_it_related (text : string) (keywords : list string) : bool :=
  if negb (str_truthy text) then false
  else
    let text_lower := lower text in
    existsb (fun keyword => contains (lower keyword) text_lower) keywords.

Section recency.

(** [datetime.fromisoformat] of the standard library; [None] stands for
    its [ValueError]. *)
Variable fromisoformat : string -> option datetime.

(** The body of the loop of [filter_last_24_hours] for one dictionary,
    with its [try ... except (ValueError, TypeError)]: [Return true]
    when the dictionary is appended, [Return false] when the iteration
    ends in [continue]. *)
Definition posted_recently (twenty_four_hours_ago : datetime)
    (internship : dict) : pyresult bool :=
  try_except
    (match internship !! "posted_date" with
     | None => Return false
     | Some v =>
         if negb (truthy v) then Return false
         else
          (posted_date <-
             match v with
             | VStr s =>
                 match fromisoformat s with
                 | Some dt => Return dt
                 | None => Raise ValueError
                 end
             | VDatetime dt => Return dt
             | VNone | VInt _ => Raise AttributeError
             end ;;
           let posted_date :=
             match tzinfo posted_date with
             | None => replace_tzinfo_utc posted_date
             | Some _ => posted_date
             end in
           datetime_ge posted_date twenty_four_hours_ago)%py
     end)
    ValueError_or_TypeError
    (fun _ => Return false).

(** The [for] loop; [recent_internships] is the list built so far. *)
Fixpoint filter_loop (twenty_four_hours_ago : datetime)
    (internships recent_internships : list dict) : pyresult (list dict) :=
  match internships with
  | [] => Return recent_internships
  | internship :: rest =>
     (keep <- posted_recently twenty_four_hours_ago internship ;;
      filter_loop twenty_four_hours_ago rest
        (if keep : bool then recent_internships ++ [internship]
         else recent_internships))%py
  end.

(** [filter_last_24_hours], evaluated at UTC instant [clock]. *)
Definition filter_last_24_hours (clock : Z) (internships : list dict)
    : pyresult (list dict) :=
  match internships with
  | [] => Return []
  | _ =>
      let current_time := now_utc clock in
      let twenty_four_hours_ago := sub_timedelta current_time (24 * hour) in
      filter_loop twenty_four_hours_ago internships []
  end.

End recency.

End helpers.

(** ** [src/config.py] *)

Module config.

Definition IT_KEYWORDS : list string := [
  "python"; "java"; "javascript"; "typescript"; "c++"; "c#"; "go"; "ruby";
  "php"; "swift"; "kotlin"; "rust"; "scala"; "r"; "matlab"; "perl"; "dart";
  "haskell"; "lua"; "groovy"; "elixir"; "clojure"; "julia";
  "web"; "frontend"; "front-end"; "backend"; "back-end"; "full stack";
  "full-stack"; "react"; "angular"; "vue"; "node"; "django"; "flask";
  "spring"; "laravel"; "ruby on rails"; "express"; "asp.net"; "graphql";
  "rest"; "api"; "microservices"; "serverless";
  "mobile"; "android"; "ios"; "react native"; "flutter"; "xamarin";
  "swiftui"; "kotlin multiplatform";
  "data science"; "machine learning"; "artificial intelligence"; "ai"; "ml";
  "deep learning"; "neural networks"; "nlp"; "natural language processing";
  "computer vision"; "data analysis"; "data engineering"; "big data";
  "tensorflow"; "pytorch"; "keras"; "scikit-learn"; "pandas"; "numpy";
  "opencv"; "spark"; "hadoop";
  "devops"; "cloud"; "aws"; "amazon web services"; "azure"; "google cloud";
  "gcp"; "docker"; "kubernetes"; "terraform"; "ansible"; "jenkins";
  "github actions"; "gitlab ci"; "ci/cd"; "infrastructure as code";
  "serverless"; "lambda"; "google cloud functions"; "azure functions";
  "cybersecurity"; "information security"; "penetration testing";
  "ethical hacking"; "blockchain"; "ethereum"; "smart contracts";
  "solidity"; "iot"; "internet of things"; "embedded systems";
  "game development"; "unity"; "unreal engine"; "vr"; "virtual reality";
  "ar"; "augmented reality"; "quantum computing"; "robotics"; "automation";
  "sre"; "site reliability engineering";
  "software"; "developer"; "engineering"; "programming"; "coding";
  "development"; "computer science"; "cs"; "it"; "information technology";
  "tech"; "technology"; "computer"; "computing"; "digital" ].

Definition LOCATION_FILTERS : list string := [ "india" ].

End config.

(** ** [src/models/internship.py] *)

Module models.

(** An instance of [Internship].  [posted_date] is a [datetime], as the
    annotation of the constructor has it. *)
Record Internship := {
  title : string;
  company : string;
  location : string;
  url : string;
  source : string;
  posted_date : datetime;
  description : string;
  metadata : dict
}.

(** [Internship.__init__], run at UTC instant [clock]; [posted_date] and
    [description] are the optional arguments, [kwargs] the extra keyword
    arguments. *)
Definition __init__ (clock : Z)
    (title company location url source : string)
    (posted_date : option datetime) (description : option string)
    (kwargs : dict) : Internship :=
  {| title := helpers.clean_text title;
     company := helpers.clean_text company;
     location := helpers.clean_text location;
     url := strip url;
     source := source;
     posted_date := default (utcnow clock) posted_date;
     description := helpers.clean_text (default "" description);
     metadata := kwargs |}.

(** [Internship.to_dict]: the seven fields, then [**self.metadata] (whose
    entries win over the fields). *)
Definition to_dict (self : Internship) : dict :=
  metadata self ∪
  list_to_map [
    ("title", VStr (title self));
    ("company", VStr (company self));
    ("location", VStr (location self));
    ("url", VStr (url self));
    ("source", VStr (source self));
    ("posted_date", VDatetime (posted_date self));
    ("description", VStr (description self)) ].

(** The right operand of [==]: an [Internship] or any other object. *)
Inductive object :=
| AnInternship (other : Internship)
| AnotherObject (v : pyvalue).

(** [Internship.__eq__] *)
Definition __eq__ (self : Internship) (other : object) : bool :=
  match other with
  | AnInternship other => bool_decide (url self = url other)
  | AnotherObject _ => false
  end.

Section hashing.
(** The built-in [hash] on strings. *)
Variable hash : string -> Z.

(** [Internship.__hash__] *)
Definition __hash__ (self : Internship) : Z := hash (url self).
End hashing.

End models.

(** ** The collaborators: local files, the remote store, the Telegram sink *)

Module external.

(** What a JSON file holds: a list of strings (the program writes no
    other list), or a document that is no list.  A list with an element
    that is not a string is outside the model. *)
Inductive json :=
| JList (items : list string)
| JOther.

(** A file: missing, holding a JSON document, or present but failing to
    load. *)
Inductive file :=
| Missing
| Stored (data : json)
| Unreadable.

(** How far the writing of a file gets ([os.makedirs] where the source
    calls it, [open(..., 'w')], [json.dump] and the closing of the file).
    [NotOpened]: the directory could not be made or the file not opened,
    and the file is as it was.  [Interrupted]: [open] has truncated the
    file and the dump or the closing raised; what is left is the whole
    text ([complete]) or the empty file or a part of the text, which
    [json.load] cannot read. *)
Inductive written :=
| Written
| NotOpened (e : exn)
| Interrupted (e : exn) (complete : bool).

(** What the file holds after the attempt to write [data] to it. *)
Definition left_by (write : written) (data : json) (before : file) : file :=
  match write with
  | Written => Stored data
  | NotOpened _ => before
  | Interrupted _ complete => if complete then Stored data else Unreadable
  end.

(** What the attempt returns or raises. *)
Definition raised_by (write : written) : pyresult unit :=
  match write with
  | Written => Return tt
  | NotOpened e | Interrupted e _ => Raise e
  end.

(** The answer of the remote store to an enumeration ([stream()]): the
    ids of the documents yielded, in order, the enumeration then ending
    normally ([Streamed]) or raising ([Broken]). *)
Inductive stream :=
| Streamed (ids : list string)
| Broken (ids : list string).

Definition yielded (answer : stream) : list string :=
  match answer with Streamed ids | Broken ids => ids end.

(** How the enumeration ends, once every document has been yielded. *)
Definition ending {S} (answer : stream) : action S unit :=
  match answer with
  | Streamed _ => pure tt
  | Broken _ => raise OtherException
  end.

(** The handle returned by [firestore.client()]. *)
Inductive client := Client.

(** Calls made to the collaborators.  The fields of the documents and the
    text of the messages are not modelled. *)
Inductive event :=
| RemoteStream (collection : string)
| RemoteSet (collection doc_id : string)
| RemoteQueryOld (collection : string) (days : Z)
| RemoteCommit (deleted : list string)
| FileWrite (name : string) (data : json)
| TelegramPost (chunk : list models.Internship) (is_daily_update : bool)
| TelegramSummary.

(** [s.update(xs)] *)
Definition update (xs : list string) (s : gset string) : gset string :=
  foldl (fun s x => {[x]} ∪ s) s xs.

End external.

Import external.

(** ** [src/utils/seen_jobs.py] *)

Module seen_jobs.

(** The module's globals, the local file and the calls made so far. *)
Record state := {
  _seen_jobs_cache : gset string;
  _db : option client;
  _LOCAL_SEEN_JOBS_FILE : file;
  trace : list event
}.

Definition with_cache (f : gset string -> gset string) (st : state) : state :=
  {| _seen_jobs_cache := f (_seen_jobs_cache st); _db := _db st;
     _LOCAL_SEEN_JOBS_FILE := _LOCAL_SEEN_JOBS_FILE st; trace := trace st |}.

Definition set_db (db : option client) (st : state) : state :=
  {| _seen_jobs_cache := _seen_jobs_cache st; _db := db;
     _LOCAL_SEEN_JOBS_FILE := _LOCAL_SEEN_JOBS_FILE st; trace := trace st |}.

Definition set_file (f : file) (st : state) : state :=
  {| _seen_jobs_cache := _seen_jobs_cache st; _db := _db st;
     _LOCAL_SEEN_JOBS_FILE := f; trace := trace st |}.

Definition emit (e : event) (st : state) : state :=
  {| _seen_jobs_cache := _seen_jobs_cache st; _db := _db st;
     _LOCAL_SEEN_JOBS_FILE := _LOCAL_SEEN_JOBS_FILE st;
     trace := trace st ++ [e] |}.

(** A call to a collaborator: it is recorded, then answers. *)
Definition call {A} (e : event) (answer : pyresult A) : action state A :=
  (modify (emit e) ;; outcome answer)%act.

(** [load_seen_jobs]; [remote] is the store's answer to the enumeration of
    the collection (asked only when there is a client).  The set the
    source returns is the cache itself, read from the state here. *)
Definition load_seen_jobs (remote : stream) : action state unit :=
  (db <- gets _db ;;
   returned <-
     match db with
     | Some _ =>
         try_
           (modify (emit (RemoteStream "seen_jobs")) ;;
            for_each (yielded remote)
              (fun doc_id => modify (with_cache (union {[doc_id]}))) ;;
            ending remote ;;
            pure true)
           Exception
           (fun _ => pure false)
     | None => pure false
     end ;;
   if returned : bool then pure tt
   else
     try_
       (f <- gets _LOCAL_SEEN_JOBS_FILE ;;
        match f with
        | Missing => pure tt
        | Unreadable => raise ValueError
        | Stored (JList data) => modify (with_cache (update data))
        | Stored JOther => pure tt
        end)
       Exception
       (fun _ => pure tt))%act.

(** [initialize_seen_jobs]; [apps] tells whether [firebase_admin._apps] is
    non-empty, [init] is the outcome of [initialize_app()] followed by
    [firestore.client()]. *)
Definition initialize_seen_jobs (apps : bool) (init : pyresult unit)
    (remote : stream) : action state unit :=
  (try_
     (if negb apps then
        try_
          (outcome init ;; modify (set_db (Some Client)))
          Exception
          (fun _ => modify (set_db None))
      else pure tt)
     Exception
     (fun _ => modify (set_db None)) ;;
   load_seen_jobs remote)%act.

(** [get_seen_jobs] *)
Definition get_seen_jobs (apps : bool) (init : pyresult unit)
    (remote : stream) : action state unit :=
  (cache <- gets _seen_jobs_cache ;;
   db <- gets _db ;;
   if bool_decide (cache = ∅) && bool_decide (db = None)
   then initialize_seen_jobs apps init remote
   else pure tt)%act.

(** [_save_to_local_file]; [write] tells how far creating the directory,
    opening the file and dumping the list get. *)
Definition _save_to_local_file (write : written) : action state unit :=
  try_
    (cache <- gets _seen_jobs_cache ;;
     let data := JList (elements cache) in
     modify (emit (FileWrite "seen_jobs.json" data)) ;;
     modify (fun st =>
               set_file (left_by write data (_LOCAL_SEEN_JOBS_FILE st)) st) ;;
     outcome (raised_by write))%act
    Exception
    (fun _ => pure tt).

(** [mark_seen]; [url] is [None] for the Python [None], [remote_set] the
    outcome of [doc_ref.set]. *)
Definition mark_seen (remote_set : pyresult unit) (write : written)
    (url : option string) : action state unit :=
  match url with
  | None => pure tt
  | Some url =>
      if negb (str_truthy url) then pure tt
      else
        (modify (with_cache (union {[url]})) ;;
         db <- gets _db ;;
         match db with
         | Some _ =>
             try_
               (call (RemoteSet "seen_jobs" url) remote_set)
               Exception
               (fun _ => pure tt)
         | None => pure tt
         end ;;
         try_
           (_save_to_local_file write)
           Exception
           (fun _ => pure tt))%act
  end.

(** [has_seen] *)
Definition has_seen (url : string) : action state bool :=
  gets (fun st => bool_decide (url ∈ _seen_jobs_cache st)).

(** The loop of [cleanup_seen_jobs] over the old documents.  [batch] holds
    the deletions not yet committed, [count] the number of documents
    handled so far; [commit n] is the outcome of the commit issued after
    [n] documents.  Returns the last [batch] and [count]. *)
Fixpoint cleanup_loop (commit : nat -> pyresult unit)
    (old_docs : list string) (batch : list string) (count : nat)
    : action state (list string * nat) :=
  match old_docs with
  | [] => pure (batch, count)
  | doc :: rest =>
      (let batch := batch ++ [doc] in
       cached <- gets (fun st => bool_decide (doc ∈ _seen_jobs_cache st)) ;;
       (if cached : bool
        then modify (with_cache (fun cache => cache ∖ {[doc]}))
        else pure tt) ;;
       let count := S count in
       if (count mod 500 =? 0)%nat then
         (call (RemoteCommit batch) (commit count) ;;
          cleanup_loop commit rest [] count)
       else cleanup_loop commit rest batch count)%act
  end.

(** [cleanup_seen_jobs]; [old_docs] is the store's answer to the query for
    the documents seen more than [days] days ago. *)
Definition cleanup_seen_jobs (days : Z) (old_docs : stream)
    (commit : nat -> pyresult unit) : action state unit :=
  (db <- gets _db ;;
   match db with
   | None => pure tt
   | Some _ =>
       try_
         (modify (emit (RemoteQueryOld "seen_jobs" days)) ;;
          vars <- cleanup_loop commit (yielded old_docs) [] 0 ;;
          ending old_docs ;;
          let '(batch, count) := vars in
          if negb (count mod 500 =? 0)%nat
          then call (RemoteCommit batch) (commit count)
          else pure tt)
         Exception
         (fun _ => pure tt)
   end)%act.

(** [close_seen_jobs] *)
Definition close_seen_jobs (write : written) : action state unit :=
  (try_ (_save_to_local_file write) Exception (fun _ => pure tt) ;;
   modify (set_db None))%act.

End seen_jobs.

(** ** [src/fetchers/base_fetcher.py] *)

Module base_fetcher.

(** What [self.seen_jobs] refers to once set: the cache of [seen_jobs]
    itself (the very set [get_seen_jobs] returns), not a copy of it. *)
Inductive cache_ref := the_seen_jobs_cache.

Record BaseFetcher := {
  source_name : string;
  max_days_old : Z;
  seen_jobs : option cache_ref
}.

(** [BaseFetcher.__init__] *)
Definition __init__ (source_name : string) (max_days_old : Z) : BaseFetcher :=
  {| source_name := source_name; max_days_old := max_days_old;
     seen_jobs := None |}.

(** [BaseFetcher.initialize]: the fetcher as it is left, and the boolean
    returned. *)
Definition initialize (apps : bool) (init : pyresult unit) (remote : stream)
    (self : BaseFetcher) : action seen_jobs.state (BaseFetcher * bool) :=
  try_
    (seen_jobs.get_seen_jobs apps init remote ;;
     pure ({| source_name := source_name self;
              max_days_old := max_days_old self;
              seen_jobs := Some the_seen_jobs_cache |}, true))%act
    Exception
    (fun _ => pure (self, false)).

(** The truth value of [self.seen_jobs]: set, and the set not empty. *)
Definition seen_jobs_truthy (self : BaseFetcher) (st : seen_jobs.state)
    : bool :=
  match seen_jobs self with
  | None => false
  | Some the_seen_jobs_cache =>
      negb (bool_decide (seen_jobs._seen_jobs_cache st = ∅))
  end.

(** [BaseFetcher.cleanup] *)
Definition cleanup (old_docs : stream) (commit : nat -> pyresult unit)
    (write : written) (self : BaseFetcher)
    : action seen_jobs.state unit :=
  try_
    (bound <- gets (seen_jobs_truthy self) ;;
     if bound : bool then
       (seen_jobs.cleanup_seen_jobs 30 old_docs commit ;;
        seen_jobs.close_seen_jobs write)
     else pure tt)%act
    Exception
    (fun _ => pure tt).

(** The attribute [self.seen_jobs.<name>]: what [self.seen_jobs] refers to
    is a [set], which has no attribute [has_seen] nor [mark_seen], so
    asking for one is an [AttributeError]. *)
Definition seen_jobs_method {A} (name : string) : action seen_jobs.state A :=
  raise AttributeError.

(** The loop of [filter_new_internships]. *)
Fixpoint filter_new_loop (internships new_internships : list models.Internship)
    : action seen_jobs.state (list models.Internship) :=
  match internships with
  | [] => pure new_internships
  | internship :: rest =>
      (seen <- seen_jobs_method "has_seen" ;;
       if negb seen
       then filter_new_loop rest (new_internships ++ [internship])
       else filter_new_loop rest new_internships)%act
  end.

(** [BaseFetcher.filter_new_internships] *)
Definition filter_new_internships (self : BaseFetcher)
    (internships : list models.Internship)
    : action seen_jobs.state (list models.Internship) :=
  (bound <- gets (seen_jobs_truthy self) ;;
   if negb bound then pure internships
   else filter_new_loop internships [])%act.

(** [BaseFetcher.mark_internships_seen] *)
Definition mark_internships_seen (self : BaseFetcher)
    (internships : list models.Internship) : action seen_jobs.state unit :=
  (bound <- gets (seen_jobs_truthy self) ;;
   if negb bound then pure tt
   else
     for_each internships
       (fun internship => seen_jobs_method "mark_seen"))%act.

End base_fetcher.

(** ** [src/fetchers/remotive_fetcher.py]: how a fetcher builds a record *)

Module remotive_fetcher.

Definition SOURCE_NAME : string := "Remotive".

Section parsing.

(** [datetime.strptime] with the format ['%Y-%m-%dT%H:%M:%S%z']; [None]
    stands for its [ValueError]. *)
Variable strptime : string -> option datetime.

(** [job_data.get(key, default)] where a method of [str] is then called on
    the result: an [AttributeError] for a value that is not a string. *)
Definition get_str (job_data : dict) (key default : string) : pyresult string :=
  match job_data !! key with
  | None => Return default
  | Some (VStr s) => Return s
  | Some VNone | Some (VInt _) | Some (VDatetime _) => Raise AttributeError
  end.

(** The publication date of [_parse_job]: [None] when the field is absent
    or false, and when [strptime] raises ([ValueError] on a string it
    cannot read, [TypeError] on a value that is not a string). *)
Definition published_date (job_data : dict) : option datetime :=
  match job_data !! "publication_date" with
  | Some (VStr published_str) =>
      if str_truthy published_str then strptime published_str else None
  | Some VNone | Some (VInt _) | Some (VDatetime _) | None => None
  end.

(** [RemotiveFetcher._parse_job], run at UTC instant [clock]: the record,
    or [None] (also when an exception is caught). *)
Definition _parse_job (clock : Z) (job_data : dict)
    : pyresult (option models.Internship) :=
  try_except
    (title <- get_str job_data "title" "" ;;
     let title := strip title in
     company <- get_str job_data "company_name" "" ;;
     let company := strip company in
     url <- get_str job_data "url" "" ;;
     let url := strip url in
     if negb (str_truthy title && str_truthy company && str_truthy url)
     then Return None
     else
       let published_date := published_date job_data in
       location <-
         match job_data !! "candidate_required_location" with
         | None => Return "Remote"
         | Some v =>
             if negb (truthy v) then Return "Remote"
             else
               match v with
               | VStr location =>
                   Return (if String.eqb (lower location) "anywhere"
                           then "Remote" else location)
               | VNone | VInt _ | VDatetime _ => Raise AttributeError
               end
         end ;;
       description <-
         match job_data !! "description" with
         | None => Return ""
         | Some v =>
             if negb (truthy v) then Return ""
             else
               match v with
               | VStr description => Return description
               | VNone | VInt _ | VDatetime _ => Raise AttributeError
               end
         end ;;
       Return
         (Some (models.__init__ clock title company location url SOURCE_NAME
                  published_date (Some description) ∅)))%py
    Exception
    (fun _ => Return None).

End parsing.

End remotive_fetcher.

(** ** [src/bot.py] *)

Module bot.

Import models.

(** The fields of [InternshipFinderBot] that the pipeline uses, the local
    file [seen_urls.json] and the calls made so far. *)
Record InternshipFinderBot := {
  seen_urls : gset string;
  fetchers : list base_fetcher.BaseFetcher;
  seen_urls_file : file;
  trace : list event
}.

Definition with_seen_urls (f : gset string -> gset string)
    (self : InternshipFinderBot) : InternshipFinderBot :=
  {| seen_urls := f (seen_urls self); fetchers := fetchers self;
     seen_urls_file := seen_urls_file self; trace := trace self |}.

Definition set_file (f : file) (self : InternshipFinderBot)
    : InternshipFinderBot :=
  {| seen_urls := seen_urls self; fetchers := fetchers self;
     seen_urls_file := f; trace := trace self |}.

Definition emit (e : event) (self : InternshipFinderBot)
    : InternshipFinderBot :=
  {| seen_urls := seen_urls self; fetchers := fetchers self;
     seen_urls_file := seen_urls_file self; trace := trace self ++ [e] |}.

Definition call {A} (e : event) (answer : pyresult A)
    : action InternshipFinderBot A :=
  (modify (emit e) ;; outcome answer)%act.

(** [_fetch_ids], the local function of [_load_seen_urls]: the set of the
    ids of all documents, the empty set when the enumeration raises. *)
Definition _fetch_ids (remote : stream)
    : action InternshipFinderBot (gset string) :=
  try_
    (modify (emit (RemoteStream "internships")) ;;
     ending remote ;;
     pure (list_to_set (yielded remote)))%act
    Exception
    (fun _ => pure ∅).

(** [_load_seen_urls]; [remote] is the store's answer to the enumeration
    of the collection, [write] tells how far the writing of the merged
    set gets. *)
Definition _load_seen_urls (remote : stream) (write : written)
    : action InternshipFinderBot unit :=
  (modify (with_seen_urls (fun _ => ∅)) ;;
   loaded_from_local <-
     try_
       (f <- gets seen_urls_file ;;
        match f with
        | Missing => pure false
        | Unreadable => raise ValueError
        | Stored (JList data) =>
            modify (with_seen_urls (update data)) ;; pure true
        | Stored JOther => pure false
        end)
       Exception
       (fun _ => pure false) ;;
   try_
     (ids <- _fetch_ids remote ;;
      if negb (bool_decide (ids = ∅)) then
        (original_count <- gets (fun self => size (seen_urls self)) ;;
         modify (with_seen_urls (fun seen => seen ∪ ids)) ;;
         new_count <-
           gets (fun self =>
                   Z.of_nat (size (seen_urls self)) - Z.of_nat original_count) ;;
         if (loaded_from_local : bool) && (0 <? new_count) then
           try_
             (seen <- gets seen_urls ;;
              let data := JList (elements seen) in
              modify (emit (FileWrite "seen_urls.json" data)) ;;
              modify (fun self =>
                        set_file
                          (left_by write data (seen_urls_file self)) self) ;;
              outcome (raised_by write))
             Exception
             (fun _ => pure tt)
         else pure tt)
      else pure tt)
     Exception
     (fun _ =>
        seen <- gets seen_urls ;;
        if bool_decide (seen = ∅)
        then modify (with_seen_urls (fun _ => ∅))
        else pure tt))%act.

Section encoding.

(** [hashlib.sha256(url.encode()).hexdigest()] *)
Variable sha256_hexdigest : string -> string.

(** The characters kept by [re.sub(r"[^a-zA-Z0-9\-_.~]", "_", url)]. *)
Definition safe_char (c : ascii) : bool :=
  let n := N_of_ascii c in
  ((97 <=? n) && (n <=? 122) || (65 <=? n) && (n <=? 90)
   || (48 <=? n) && (n <=? 57))%N
  || bool_decide (c ∈ ["-"; "_"; "."; "~"]%char).

(** [_encode_doc_id] *)
Definition _encode_doc_id (url : string) : string :=
  let encoded := str_map (fun c => if safe_char c then c else "_"%char) url in
  if (1400 <? String.length encoded)%nat
  then sha256_hexdigest url
  else encoded.

(** [save_internship]; [remote_set] is the outcome of the write to the
    remote store, [write] tells how far the writing of the local file
    gets. *)
Definition save_internship (remote_set : pyresult unit) (write : written)
    (internship : Internship) : action InternshipFinderBot unit :=
  try_
    (try_
       (let doc_id := _encode_doc_id (url internship) in
        call (RemoteSet "internships" doc_id) remote_set)
       Exception
       (fun _ => pure tt) ;;
     modify (with_seen_urls (union {[url internship]})) ;;
     try_
       (seen <- gets seen_urls ;;
        let data := JList (elements seen) in
        modify (emit (FileWrite "seen_urls.json" data)) ;;
        modify (fun self =>
                  set_file (left_by write data (seen_urls_file self)) self) ;;
        outcome (raised_by write))
       Exception
       (fun _ => pure tt))%act
    Exception
    (fun _ => pure tt).

End encoding.

(** [is_duplicate] *)
Definition is_duplicate (url : string) : action InternshipFinderBot bool :=
  gets (fun self => bool_decide (url ∈ seen_urls self)).

(** [_process_fetcher]; [fetch] is what awaiting the fetcher's [fetch()]
    ends in: a list, [None], an exception, or a cancellation, which
    [except Exception] lets through. *)
Definition _process_fetcher (fetch : awaited (option (list Internship)))
    : awaited (list Internship) :=
  match fetch with
  | Finished fetch =>
      Finished
        (try_except
           (internships <- fetch ;;
            Return (default [] internships))%py
           Exception
           (fun _ => Return []))
  | CancelledError => CancelledError
  end.

(** [asyncio.gather] over the tasks with [return_exceptions=True]: one
    entry per task, in the order of the tasks: the value of the task, or
    the exception it ended in ([CancelledError] included) as an object. *)
Definition gather {A} (tasks : list (awaited A)) : list (awaited A) := tasks.

(** The loop of [fetch_all_internships] over the results.  An entry that
    is an instance of [Exception] is logged; any other entry is handed to
    [all_jobs.extend], which raises a [TypeError] on a [CancelledError]
    object, as it is not iterable. *)
Fixpoint extend_loop (results : list (awaited (list Internship)))
    (all_jobs : list Internship) : pyresult (list Internship) :=
  match results with
  | [] => Return all_jobs
  | r :: rest =>
      match r with
      | Finished (Raise _) => extend_loop rest all_jobs
      | Finished (Return r) => extend_loop rest (all_jobs ++ r)
      | CancelledError => Raise TypeError
      end
  end.

(** [fetch_all_internships]; [fetch f] is what awaiting [f.fetch()] ends
    in. *)
Definition fetch_all_internships
    (fetch : base_fetcher.BaseFetcher -> awaited (option (list Internship)))
    : action InternshipFinderBot (list Internship) :=
  (fs <- gets fetchers ;;
   match fs with
   | [] => pure []
   | _ =>
       let tasks := (fun f => _process_fetcher (fetch f)) <$> fs in
       let results := gather tasks in
       outcome (extend_loop results [])
   end)%act.

(** [send_telegram_notification]; [credentials] tells whether both
    [TELEGRAM_BOT_TOKEN] and [TELEGRAM_CHAT_ID] are set, [post k] is the
    outcome of posting the [k]-th chunk (the HTTP status, or an
    exception). *)
Definition send_telegram_notification (credentials : bool)
    (post : nat -> pyresult Z) (internships : list Internship)
    (is_daily_update : bool) : action InternshipFinderBot unit :=
  match internships with
  | [] => pure tt
  | _ =>
      if negb credentials then pure tt
      else
        (chunks <- outcome (helpers.chunk_list internships 5) ;;
         for_each (zip (seq 0 (length chunks)) chunks)
           (fun '(k, chunk) =>
              try_
                (status <- call (TelegramPost chunk is_daily_update) (post k) ;;
                 pure tt)
                Exception
                (fun _ => pure tt)))%act
  end.

(** [send_daily_summary_notification] *)
Definition send_daily_summary_notification (credentials : bool)
    (post : pyresult Z) : action InternshipFinderBot unit :=
  if negb credentials then pure tt
  else
    try_
      (status <- call TelegramSummary post ;; pure tt)%act
      Exception
      (fun _ => pure tt).

(** The keyword test of [run] on one record. *)
Definition it_related (i : Internship) : bool :=
  (str_truthy (title i) && helpers.is_it_related (title i) config.IT_KEYWORDS)
  || (str_truthy (description i)
      && helpers.is_it_related (description i) config.IT_KEYWORDS).

(** The location test of [run] on one record. *)
Definition in_location (internship : Internship) : bool :=
  str_truthy (location internship)
  && (let location_lower := lower (location internship) in
      existsb (fun loc => contains (lower loc) location_lower)
        config.LOCATION_FILTERS).

Section cycle.

Variable fromisoformat : string -> option datetime.
Variable sha256_hexdigest : string -> string.

(** The part of [run] that selects the fresh records among those
    fetched, evaluated at UTC instant [clock]: keyword filter, location
    filter, last 24 hours (through the dictionaries and back by URL),
    then the records not yet seen. *)
Definition select_fresh (clock : Z) (all_internships : list Internship)
    : action InternshipFinderBot (list Internship) :=
  (let it_filtered := filter (fun i => it_related i = true) all_internships in
   let it_filtered :=
     match config.LOCATION_FILTERS with
     | [] => it_filtered
     | _ => filter (fun i => in_location i = true) it_filtered
     end in
   let dicts := to_dict <$> it_filtered in
   recent_dicts <- outcome (helpers.filter_last_24_hours fromisoformat clock dicts) ;;
   let recent_urls :=
     omap (fun d : dict =>
             match d !! "url" with
             | Some v => if truthy v then Some v else None
             | None => None
             end)
          recent_dicts in
   let recent_internships :=
     filter (fun i => VStr (url i) ∈ recent_urls) it_filtered in
   seen <- gets seen_urls ;;
   pure (filter (fun inst => url inst ∉ seen) recent_internships))%act.

(** The body of [run] between [initialize] and the [finally] clause.
    [remote_set i] and [write i] are the outcomes of the two writes of
    [save_internship i]. *)
Definition run_body (clock : Z)
    (fetch : base_fetcher.BaseFetcher -> awaited (option (list Internship)))
    (remote_set : Internship -> pyresult unit)
    (write : Internship -> written)
    (credentials : bool) (post : nat -> pyresult Z) (summary : pyresult Z)
    : action InternshipFinderBot unit :=
  (all_internships <- fetch_all_internships fetch ;;
   match all_internships with
   | [] => send_daily_summary_notification credentials summary
   | _ =>
       fresh <- select_fresh clock all_internships ;;
       match fresh with
       | [] => send_daily_summary_notification credentials summary
       | _ =>
           for_each fresh
             (fun inst =>
                save_internship sha256_hexdigest
                  (remote_set inst) (write inst) inst) ;;
           send_telegram_notification credentials post fresh true
       end
   end)%act.

End cycle.

End bot.

(** * Notions used in the statements *)

(** The chunks of [k] elements of a list, [m] of them. *)
Fixpoint chunks {A} (k m : nat) (l : list A) : list (list A) :=
  match m with
  | O => []
  | S m' => take k l :: chunks k m' (drop k l)
  end.

(** What a fetcher contributes: the list it returned, nothing when it
    returned [None] or raised. *)
Definition successful {A} (fetch : pyresult (option (list A))) : list A :=
  match fetch with
  | Return (Some internships) => internships
  | Return None | Raise _ => []
  end.

(** Fetches none of which is cancelled. *)
Definition finished {A B} (fetch : A -> pyresult B) : A -> awaited B :=
  fun f => Finished (fetch f).

(** What a fetch contributes when no fetch is cancelled. *)
Definition contributed {A} (fetch : awaited (option (list A))) : list A :=
  match fetch with
  | Finished fetch => successful fetch
  | CancelledError => []
  end.

(** The identities held by a local mirror: those of a stored list. *)
Definition local_ids (f : file) : gset string :=
  match f with
  | Stored (JList L) => list_to_set L
  | Stored JOther | Missing | Unreadable => ∅
  end.

(** The identities [_fetch_ids] obtains from an enumeration. *)
Definition remote_ids (remote : stream) : gset string :=
  match remote with
  | Streamed R => list_to_set R
  | Broken _ => ∅
  end.

(** What [load_seen_jobs] adds to the cache. *)
Definition hydrated_ids (db : option client) (remote : stream) (f : file)
    : gset string :=
  match db, remote with
  | Some _, Streamed R => list_to_set R
  | Some _, Broken R => list_to_set R ∪ local_ids f
  | None, _ => local_ids f
  end.

Section recency_notions.

Variable fromisoformat : string -> option datetime.

(** The moment a dictionary says it was posted at, when it says so. *)
Definition posted_at (d : dict) : option datetime :=
  match d !! "posted_date" with
  | Some (VDatetime dt) => Some dt
  | Some (VStr s) => if str_truthy s then fromisoformat s else None
  | Some VNone | Some (VInt _) | None => None
  end.

(** The timestamp is missing (no key, or a false value) or is a string that
    does not parse. *)
Definition missing_or_unparseable (d : dict) : bool :=
  match d !! "posted_date" with
  | None => true
  | Some v =>
      negb (truthy v)
      || match v with
         | VStr s => bool_decide (fromisoformat s = None)
         | VNone | VInt _ | VDatetime _ => false
         end
  end.

(** The timestamp has a type the filter handles: anything but a non-zero
    number, whose [tzinfo] attribute the filter would ask for. *)
Definition datable (d : dict) : bool :=
  match d !! "posted_date" with
  | Some (VInt n) => n =? 0
  | Some VNone | Some (VStr _) | Some (VDatetime _) | None => true
  end.

(** Posted no earlier than 24 hours before [clock]; a later moment, one
    after [clock] included, counts as well. *)
Definition recent (clock : Z) (d : dict) : bool :=
  match posted_at d with
  | Some dt => bool_decide (clock - 24 * hour <= instant dt)
  | None => false
  end.

End recency_notions.

(** The operations on the seen-jobs store, each with what the outside world
    answers to it. *)
Inductive operation :=
| initialize (apps : bool) (init : pyresult unit) (remote : stream)
| hydrate (remote : stream)
| contains_identity (url : string)
| record_identity (remote_set : pyresult unit) (write : written)
    (url : option string)
| adapter_cleanup (self : base_fetcher.BaseFetcher) (old_docs : stream)
    (commit : nat -> pyresult unit) (write : written).

Definition perform (op : operation) : action seen_jobs.state unit :=
  match op with
  | initialize apps init remote =>
      seen_jobs.initialize_seen_jobs apps init remote
  | hydrate remote => seen_jobs.load_seen_jobs remote
  | contains_identity url => (_ <- seen_jobs.has_seen url ;; pure tt)%act
  | record_identity remote_set write url =>
      seen_jobs.mark_seen remote_set write url
  | adapter_cleanup self old_docs commit write =>
      base_fetcher.cleanup old_docs commit write self
  end.

(** The identities the remote store reports as expired to an operation. *)
Definition expired (op : operation) : gset string :=
  match op with
  | adapter_cleanup _ old_docs _ _ => list_to_set (yielded old_docs)
  | initialize _ _ _ | hydrate _ | contains_identity _
  | record_identity _ _ _ => ∅
  end.

(** ** Notions of the further properties *)

(** Every character of a string is one [_encode_doc_id] keeps. *)
Definition safe_string (s : string) : bool :=
  forallb bot.safe_char (String.list_ascii_of_string s).

Definition substitute (c : ascii) : ascii :=
  if bot.safe_char c then c else "_"%char.

(** The batches of deletions committed, as a trace records them. *)
Definition commits (tr : list event) : list (list string) :=
  omap (fun e => match e with RemoteCommit deleted => Some deleted | _ => None end) tr.

(** The metadata of a record shadows neither its date nor its URL in
    [to_dict] (as for every record the constructor builds: the two names
    are parameters of their own). *)
Definition plain (r : models.Internship) : bool :=
  bool_decide (models.metadata r !! "posted_date" = None
               ∧ models.metadata r !! "url" = None).

(** The record passes the keyword test and the location test of [run]. *)
Definition passes_filters (r : models.Internship) : Prop :=
  bot.it_related r = true ∧ bot.in_location r = true.

(** The record's own date is at most 24 hours before [clock]. *)
Definition posted_within_24h (clock : Z) (r : models.Internship) : Prop :=
  clock - 24 * hour <= instant (models.posted_date r).

(** The chunks a trace records as posted. *)
Definition posts (tr : list event) : list (list models.Internship) :=
  omap (fun e => match e with TelegramPost chunk _ => Some chunk | _ => None end) tr.

(** The records kept by the keyword and location filters. *)
Definition it_filtered_of (all : list models.Internship)
    : list models.Internship :=
  filter (fun i => bot.in_location i = true)
    (filter (fun i => bot.it_related i = true) all).

(** The value collected into [recent_urls] for one dictionary. *)
Definition url_of (d : dict) : option pyvalue :=
  match d !! "url" with
  | Some v => if truthy v then Some v else None
  | None => None
  end.

Section selection_notions.

Variable fromisoformat : string -> option datetime.

(** The records [select_fresh] keeps, given the URLs already seen. *)
Definition selection (clock : Z) (all : list models.Internship)
    (seen : gset string) : list models.Internship :=
  filter (fun inst => models.url inst ∉ seen)
    (filter
       (fun i =>
          VStr (models.url i)
          ∈ omap url_of
              (filter (fun d => recent fromisoformat clock d = true)
                 (models.to_dict <$> it_filtered_of all)))
       (it_filtered_of all)).

End selection_notions.

(** The records the fetchers return to [fetch_all_internships]. *)
Definition fetched (fetch : base_fetcher.BaseFetcher ->
                            pyresult (option (list models.Internship)))
    (self : bot.InternshipFinderBot) : list models.Internship :=
  concat ((fun f => successful (fetch f)) <$> bot.fetchers self).

(** The characters of a string. *)
Definition chars (s : string) : list ascii := String.list_ascii_of_string s.

Arguments chars s /.

(** The characters [clean_text] may leave: code point 32 or above, and no
    whitespace but the space.  That is less than "no control character":
    the source only tests [ord(char) >= 32], so DEL (127) and the controls
    128 to 159 other than the whitespace NEL (133) are left in. *)
Definition cleaned_char (c : ascii) : Prop :=
  (32 <= N_of_ascii c)%N ∧ (isspace c = true → c = " "%char).

(** The characters [clean_text] never touches: code point 32 or above and
    no whitespace (DEL and most controls from 128 to 159 among them). *)
Definition untouched_char (c : ascii) : Prop :=
  (32 <= N_of_ascii c)%N ∧ isspace c = false.

(** ** Data of the examples *)

Definition new_bot : bot.InternshipFinderBot :=
  {| bot.seen_urls := ∅; bot.fetchers := [];
     bot.seen_urls_file := Missing; bot.trace := [] |}.

Definition new_module : seen_jobs.state :=
  {| seen_jobs._seen_jobs_cache := ∅; seen_jobs._db := None;
     seen_jobs._LOCAL_SEEN_JOBS_FILE := Missing; seen_jobs.trace := [] |}.

(** A record as a fetcher builds it at instant [clock]. *)
Definition posting (clock : Z) (url : string) (posted_date : option datetime)
    : models.Internship :=
  models.__init__ clock "Python Developer Intern" "Acme" "Pune, India"
    url "RemoteOK" posted_date None ∅.

(** Midnight of some day, and a record built then from a posting that
    carried no date. *)
Definition some_day : Z := 20000 * day.

Definition undated : models.Internship :=
  posting some_day "https://example.com/jobs/1" None.

(** A job as the Remotive API returns it, with a date that does not parse. *)
Definition job_posted_last_week : dict :=
  list_to_map [
    ("title", VStr "Python Developer Intern");
    ("company_name", VStr "Acme");
    ("url", VStr "https://example.com/jobs/2");
    ("publication_date", VStr "last week");
    ("candidate_required_location", VStr "Pune, India") ].

Definition rss : base_fetcher.BaseFetcher :=
  base_fetcher.__init__ "rss" 7.

Definition remoteok : base_fetcher.BaseFetcher :=
  base_fetcher.__init__ "RemoteOK" 7.

(** A fetcher after [initialize]: [seen_jobs] is bound to the cache. *)
Definition initialized (f : base_fetcher.BaseFetcher) : base_fetcher.BaseFetcher :=
  {| base_fetcher.source_name := base_fetcher.source_name f;
     base_fetcher.max_days_old := base_fetcher.max_days_old f;
     base_fetcher.seen_jobs := Some base_fetcher.the_seen_jobs_cache |}.

(** No string parses: enough where every timestamp is a [datetime]. *)
Definition no_iso_string (s : string) : option datetime := None.

(** A digest and a hash for the examples (their values do not matter). *)
Definition some_digest (s : string) : string := "digest".

Definition some_hash (s : string) : Z := Z.of_nat (String.length s).

(** A bot with one fetcher, and a fetch that returns one dated record. *)
Definition bot_with_one_fetcher : bot.InternshipFinderBot :=
  {| bot.seen_urls := ∅; bot.fetchers := [rss];
     bot.seen_urls_file := Missing; bot.trace := [] |}.

Definition posted_at_noon : models.Internship :=
  posting some_day "https://example.com/jobs/3"
    (Some {| wall := some_day - 12 * hour; tzinfo := None |}).

Definition fetch_one (f : base_fetcher.BaseFetcher)
    : pyresult (option (list models.Internship)) :=
  Return (Some [posted_at_noon]).

(** * Facts about the embedding *)

(** Unfolds the combinators of [action] and evaluates. *)
Ltac run :=
  unfold exec, result, and_then, try_, gets, modify, pure, raise, outcome,
         ending, Exception;
  cbn.

(** Names quotient and remainder of [n] by 5, for [lia]. *)
Ltac div5 n :=
  let q := fresh "q" in
  let r := fresh "r" in
  pose proof (Nat.div_mod_eq n 5);
  pose proof (Nat.mod_upper_bound n 5 ltac:(lia));
  generalize dependent (n / 5)%nat;
  generalize dependent (n mod 5)%nat;
  intros r ? q ?.

(** The same by 500. *)
Ltac div500 n :=
  let q := fresh "q" in
  let r := fresh "r" in
  pose proof (Nat.div_mod_eq n 500);
  pose proof (Nat.mod_upper_bound n 500 ltac:(lia));
  generalize dependent (n / 500)%nat;
  generalize dependent (n mod 500)%nat;
  intros r ? q ?.

(** ** Chunking *)

Section chunking.

Context {A : Type}.
Implicit Types (l lst : list A) (k m s : nat).

Lemma range_by_5 (n : nat) :
  range 0 (Z.of_nat n) 5
  = Return ((fun j : nat => 0 + Z.of_nat j * 5) <$> seq 0 ((n + 4) / 5)).
Proof.
  unfold range. simpl (5 =? 0). cbv iota. simpl (0 <? 5). cbv iota.
  do 3 f_equal.
  destruct (Z.ltb_spec 0 (Z.of_nat n)).
  - replace (Z.of_nat n - 1 - 0) with (Z.of_nat n - 1) by lia.
    assert (1 + (Z.of_nat n - 1) / 5 = Z.of_nat ((n + 4) / 5)) as ->.
    { rewrite Nat2Z.inj_div.
      replace (Z.of_nat (n + 4)) with ((Z.of_nat n - 1) + 1 * 5) by lia.
      rewrite Z.div_add by lia. lia. }
    apply Nat2Z.id.
  - assert (n = 0%nat) as -> by lia. reflexivity.
Qed.

(** A slice from a non-negative index is a [take] of a [drop]. *)
Lemma slice_take_drop lst (i k : nat) :
  slice lst (Z.of_nat i) (Z.of_nat i + Z.of_nat k) = take k (drop i lst).
Proof.
  unfold slice, clamp_index.
  destruct (Z.ltb_spec (Z.of_nat i) 0); [lia|].
  destruct (Z.ltb_spec (Z.of_nat i + Z.of_nat k) 0); [lia|].
  destruct (decide (length lst <= i)%nat) as [Hge|Hlt].
  - replace (Z.to_nat (_ - _)) with 0%nat by lia.
    by rewrite (drop_ge lst i), take_nil by lia.
  - replace (Z.to_nat (Z.min (Z.of_nat i) _)) with i by lia.
    destruct (decide (i + k <= length lst)%nat).
    + f_equal. lia.
    + rewrite !take_ge; [done | rewrite length_drop; lia | rewrite length_drop; lia].
Qed.

Lemma slices_chunks lst k m s :
  (fun j : nat => take k (drop (j * k) lst)) <$> seq s m
  = chunks k m (drop (s * k) lst).
Proof.
  revert s. induction m as [|m IH]; intros s; [done|].
  cbn [seq fmap list_fmap chunks]. f_equal.
  change (list_fmap _ _ ?f ?l) with (f <$> l).
  rewrite IH, drop_drop. do 2 f_equal. lia.
Qed.

Lemma chunk_list_by_5 lst :
  helpers.chunk_list lst 5 = Return (chunks 5 ((length lst + 4) / 5) lst).
Proof.
  unfold helpers.chunk_list. rewrite range_by_5. cbn [bind].
  f_equal. rewrite <- list_fmap_compose.
  rewrite <- (slices_chunks lst 5 _ 0). apply list_fmap_ext.
  intros _ j _. cbn.
  replace (0 + Z.of_nat j * 5) with (Z.of_nat (j * 5)) by lia.
  apply (slice_take_drop lst (j * 5) 5).
Qed.

Lemma length_chunks k m l : length (chunks k m l) = m.
Proof. revert l. induction m; intros; cbn; auto. Qed.

Lemma concat_chunks k m l :
  (length l <= m * k)%nat -> concat (chunks k m l) = l.
Proof.
  revert l. induction m as [|m IH]; intros l Hlen; cbn.
  - destruct l; [done | cbn in Hlen; lia].
  - rewrite IH; [apply take_drop | rewrite length_drop; lia].
Qed.

Lemma sizes_chunks_by_5 m l :
  m = ((length l + 4) / 5)%nat ->
  length <$> chunks 5 m l
  = replicate (length l / 5) 5%nat
    ++ (if (length l mod 5 =? 0)%nat then [] else [(length l mod 5)%nat]).
Proof.
  revert l. induction m as [|m IH]; intros l Hm.
  - assert (length l = 0%nat) as -> by (div5 (length l + 4)%nat; lia). done.
  - cbn [chunks fmap list_fmap]. change (list_fmap _ _ ?f ?l) with (f <$> l).
    destruct (decide (5 <= length l)%nat) as [Hge|Hlt].
    + rewrite IH; rewrite length_drop.
      2:{ div5 (length l + 4)%nat. div5 (length l - 5 + 4)%nat. lia. }
      rewrite length_take, Nat.min_l by lia.
      assert ((length l - 5) mod 5 = length l mod 5)%nat as ->
        by (div5 (length l); div5 (length l - 5)%nat; lia).
      assert (length l / 5 = S ((length l - 5) / 5))%nat as ->
        by (div5 (length l); div5 (length l - 5)%nat; lia).
      done.
    + assert (m = 0%nat) as -> by (div5 (length l + 4)%nat; lia).
      rewrite length_take, Nat.min_r by lia.
      assert (length l / 5 = 0)%nat as -> by (div5 (length l); lia).
      assert (length l mod 5 = length l)%nat as -> by (div5 (length l); lia).
      destruct (Nat.eqb_spec (length l) 0) as [H0|_]; [|done].
      div5 (length l + 4)%nat; lia.
Qed.

(** What [chunk_list] with size 5 returns. *)
Lemma chunk_list_by_5_spec lst :
  ∃ batches,
    helpers.chunk_list lst 5 = Return batches
    ∧ batches = chunks 5 ((length lst + 4) / 5) lst
    ∧ length batches = ((length lst + 4) / 5)%nat
    ∧ concat batches = lst
    ∧ length <$> batches
      = replicate (length lst / 5) 5%nat
        ++ (if (length lst mod 5 =? 0)%nat then []
            else [(length lst mod 5)%nat]).
Proof.
  eexists. split; [apply chunk_list_by_5|]. split; [done|].
  split; [apply length_chunks|].
  split; [|by apply sizes_chunks_by_5].
  apply concat_chunks. div5 (length lst + 4)%nat. lia.
Qed.

End chunking.

Example twelve_numbers_in_three_batches :
  helpers.chunk_list (seq 1 12) 5
  = Return [[1; 2; 3; 4; 5]; [6; 7; 8; 9; 10]; [11; 12]]%nat.
Proof. reflexivity. Qed.

Example chunk_size_zero_is_refused :
  helpers.chunk_list (seq 1 3) 0 = Raise ValueError.
Proof. reflexivity. Qed.

(** ** The fetch phase *)

Section fetch_phase.

Import bot.
Implicit Types (fetch : base_fetcher.BaseFetcher -> awaited (option (list models.Internship))).
Implicit Types (fs : list base_fetcher.BaseFetcher) (self : InternshipFinderBot).

Lemma extend_loop_spec fetch fs (all_jobs : list models.Internship) :
  extend_loop (gather ((fun f => _process_fetcher (fetch f)) <$> fs)) all_jobs
  = if existsb (fun f => cancelled (fetch f)) fs then Raise TypeError
    else Return (all_jobs ++ concat ((fun f => contributed (fetch f)) <$> fs)).
Proof.
  unfold gather. revert all_jobs.
  induction fs as [|f fs IH]; intros all_jobs.
  - cbn. by rewrite app_nil_r.
  - cbn [fmap list_fmap extend_loop existsb concat].
    change (list_fmap _ _ ?g ?l) with (g <$> l).
    destruct (fetch f) as [[[l|]|e]|]; cbn; rewrite ?IH;
      destruct (existsb _ fs); try done; by rewrite ?app_assoc, ?app_nil_r.
Qed.

(** What [fetch_all_internships] returns or raises. *)
Lemma fetch_all_internships_spec fetch self :
  fetch_all_internships fetch self
  = (self,
     if existsb (fun f => cancelled (fetch f)) (fetchers self)
     then Raise TypeError
     else Return (concat ((fun f => contributed (fetch f)) <$> fetchers self))).
Proof.
  unfold fetch_all_internships, and_then, gets.
  destruct (fetchers self) as [|f fs] eqn:Hfs; [done|].
  unfold outcome. f_equal. by rewrite extend_loop_spec.
Qed.

(** With no fetch cancelled it returns what the fetchers returned. *)
Lemma fetch_all_internships_finished
    (fetch : base_fetcher.BaseFetcher ->
             pyresult (option (list models.Internship))) self :
  fetch_all_internships (fun f => Finished (fetch f)) self
  = (self,
     Return (concat ((fun f => successful (fetch f)) <$> fetchers self))).
Proof.
  rewrite fetch_all_internships_spec.
  assert (existsb (fun f => cancelled (Finished (fetch f))) (fetchers self)
          = false) as ->.
  { by induction (fetchers self). }
  done.
Qed.

End fetch_phase.

(** ** The seen-jobs store *)

Section seen_jobs_store.

Import seen_jobs.
Implicit Types (st : state) (u url : string) (remote old_docs : stream).
Implicit Types (remote_set init : pyresult unit) (write : written).
Implicit Types (commit : nat -> pyresult unit).

Lemma update_union (xs : list string) (s : gset string) :
  update xs s = s ∪ list_to_set xs.
Proof.
  revert s. induction xs as [|x xs IH]; intros s; cbn.
  - set_solver.
  - unfold update in IH. rewrite IH. set_solver.
Qed.

Lemma add_each_union (xs : list string) st :
  for_each xs (fun doc_id => modify (with_cache (union {[doc_id]}))) st
  = (with_cache (fun cache => cache ∪ list_to_set xs) st, Return tt).
Proof.
  revert st. induction xs as [|x xs IH]; intros st; cbn [for_each].
  - run. destruct st; unfold with_cache; cbn. do 2 f_equal. set_solver.
  - unfold and_then at 1. unfold modify at 1. rewrite IH.
    destruct st; unfold with_cache; cbn. do 2 f_equal. set_solver.
Qed.

Lemma load_seen_jobs_spec remote st :
  ∃ st',
    load_seen_jobs remote st = (st', Return tt)
    ∧ _seen_jobs_cache st'
      = _seen_jobs_cache st
        ∪ hydrated_ids (_db st) remote (_LOCAL_SEEN_JOBS_FILE st)
    ∧ _db st' = _db st
    ∧ _LOCAL_SEEN_JOBS_FILE st' = _LOCAL_SEEN_JOBS_FILE st.
Proof.
  unfold load_seen_jobs. destruct st as [cache db f tr].
  unfold and_then, try_, gets, pure, raise, ending, Exception.
  cbn [_db]. destruct db as [c|]; cbv beta iota.
  - unfold modify at 1. rewrite add_each_union. destruct remote as [R|R]; cbn.
    + eexists; split; [reflexivity|]. cbn. split; [set_solver | done].
    + destruct f as [|[L|]|]; unfold modify; cbn;
        (eexists; split; [reflexivity|]); cbn;
        rewrite ?update_union; (split; [set_solver | done]).
  - destruct f as [|[L|]|]; unfold modify; cbn;
      (eexists; split; [reflexivity|]); cbn;
      rewrite ?update_union; (split; [set_solver | done]).
Qed.

Lemma initialize_seen_jobs_spec apps init remote st :
  ∃ st',
    initialize_seen_jobs apps init remote st = (st', Return tt)
    ∧ _seen_jobs_cache st ⊆ _seen_jobs_cache st'.
Proof.
  unfold initialize_seen_jobs. unfold and_then at 1.
  assert (∃ st1,
             try_
               (if negb apps then
                  try_ (outcome init ;; modify (set_db (Some Client)))%act
                    Exception (fun _ => modify (set_db None))
                else pure tt)
               Exception (fun _ => modify (set_db None)) st = (st1, Return tt)
             ∧ _seen_jobs_cache st1 = _seen_jobs_cache st)
    as (st1 & -> & Hcache).
  { destruct apps, init; run; eauto. }
  destruct (load_seen_jobs_spec remote st1) as (st' & -> & H & _).
  exists st'. split; [done|]. rewrite H, Hcache. set_solver.
Qed.

Lemma mark_seen_falsy remote_set write st :
  mark_seen remote_set write None st = (st, Return tt)
  ∧ mark_seen remote_set write (Some "") st = (st, Return tt).
Proof. done. Qed.

Lemma mark_seen_truthy remote_set write u st :
  u ≠ "" →
  ∃ st',
    mark_seen remote_set write (Some u) st = (st', Return tt)
    ∧ _seen_jobs_cache st' = {[u]} ∪ _seen_jobs_cache st.
Proof.
  intros Hu. unfold mark_seen, str_truthy.
  destruct (String.eqb_spec u "") as [|_]; [done|]. cbn [negb].
  unfold _save_to_local_file, call. run.
  destruct (_db st), remote_set, write; cbn; eauto.
Qed.

(** In every case [mark_seen] returns, and adds at most [url]. *)
Lemma mark_seen_spec remote_set write (url : option string) st :
  ∃ st',
    mark_seen remote_set write url st = (st', Return tt)
    ∧ _seen_jobs_cache st'
      = match url with
        | Some u => if str_truthy u then {[u]} ∪ _seen_jobs_cache st
                    else _seen_jobs_cache st
        | None => _seen_jobs_cache st
        end.
Proof.
  destruct url as [u|]; [|by exists st].
  unfold str_truthy. destruct (String.eqb_spec u "") as [->|Hu]; cbn [negb].
  - by exists st.
  - by apply mark_seen_truthy.
Qed.

Lemma cleanup_loop_cache commit (docs batch : list string) (count : nat) st :
  ∃ st' vars,
    cleanup_loop commit docs batch count st = (st', vars)
    ∧ _seen_jobs_cache st' ⊆ _seen_jobs_cache st
    ∧ _seen_jobs_cache st ∖ list_to_set docs ⊆ _seen_jobs_cache st'
    ∧ _db st' = _db st.
Proof.
  revert batch count st.
  induction docs as [|doc rest IH]; intros batch count st.
  - do 2 eexists. split; [reflexivity|]. set_solver.
  - cbn [cleanup_loop]. unfold and_then at 1. unfold gets at 1.
    unfold and_then at 1.
    assert (∃ st1,
               (if bool_decide (doc ∈ _seen_jobs_cache st)
                then modify (with_cache (fun cache => cache ∖ {[doc]}))
                else pure tt) st = (st1, Return tt)
               ∧ _seen_jobs_cache st1 ⊆ _seen_jobs_cache st
               ∧ _seen_jobs_cache st ∖ {[doc]} ⊆ _seen_jobs_cache st1
               ∧ _db st1 = _db st) as (st1 & -> & Hsub & Hkeep & Hdb1).
    { unfold modify, pure, with_cache.
      case_bool_decide; eexists; (split; [reflexivity|]); cbn; set_solver. }
    destruct (S count mod 500 =? 0)%nat.
    + unfold call. unfold and_then at 1. unfold and_then at 1.
      unfold modify at 1. unfold outcome at 1.
      destruct (commit (S count)).
      * destruct (IH [] (S count) (emit (RemoteCommit (batch ++ [doc])) st1))
          as (st' & vars & -> & IH1 & IH2 & IH3).
        clear IH. cbn [_seen_jobs_cache _db emit] in *.
        exists st', vars. split; [done|].
        split; [|split]; [set_solver | set_solver | congruence].
      * clear IH. do 2 eexists. split; [reflexivity|].
        cbn [_seen_jobs_cache _db emit].
        split; [|split]; [set_solver | set_solver | congruence].
    + destruct (IH (batch ++ [doc]) (S count) st1)
        as (st' & vars & -> & IH1 & IH2 & IH3).
      clear IH. exists st', vars. split; [done|].
      split; [|split]; [set_solver | set_solver | congruence].
Qed.

Lemma cleanup_seen_jobs_spec days old_docs commit st :
  ∃ st',
    cleanup_seen_jobs days old_docs commit st = (st', Return tt)
    ∧ _seen_jobs_cache st' ⊆ _seen_jobs_cache st
    ∧ _seen_jobs_cache st ∖ list_to_set (yielded old_docs) ⊆ _seen_jobs_cache st'
    ∧ _db st' = _db st
    ∧ (_db st = None → st' = st).
Proof.
  unfold cleanup_seen_jobs. unfold and_then at 1. unfold gets at 1.
  destruct (_db st) as [c|] eqn:Hdb.
  2:{ exists st. unfold pure. rewrite Hdb. set_solver. }
  unfold try_, and_then at 1. unfold modify at 1. unfold and_then at 1.
  destruct (cleanup_loop_cache commit (yielded old_docs) [] 0
              (emit (RemoteQueryOld "seen_jobs" days) st))
    as (st1 & vars & -> & H1 & H2 & H3).
  destruct vars as [[batch count]|e]; cbn [emit _seen_jobs_cache _db] in *.
  2:{ exists st1. unfold Exception, pure. rewrite H3, Hdb.
      repeat split; try done. }
  unfold and_then, ending, Exception, pure, raise.
  destruct old_docs as [ids|ids]; cbn [yielded] in *.
  2:{ exists st1. rewrite H3, Hdb. repeat split; try done. }
  destruct (negb (count mod 500 =? 0)%nat).
  - unfold call, and_then, modify, outcome.
    destruct (commit count) as [[]|e]; eexists; (split; [reflexivity|]);
      cbn [emit _seen_jobs_cache _db]; rewrite H3, Hdb; repeat split; try done.
  - exists st1. rewrite H3, Hdb. repeat split; try done.
Qed.

Lemma close_seen_jobs_spec write st :
  ∃ st',
    close_seen_jobs write st = (st', Return tt)
    ∧ _seen_jobs_cache st' = _seen_jobs_cache st
    ∧ _db st' = None.
Proof.
  unfold close_seen_jobs, _save_to_local_file, call.
  unfold and_then, try_, gets, modify, outcome, pure, Exception.
  destruct write; eexists; (split; [reflexivity|]); done.
Qed.

Lemma fetcher_cleanup_spec old_docs commit write self st :
  ∃ st',
    base_fetcher.cleanup old_docs commit write self st = (st', Return tt)
    ∧ _seen_jobs_cache st' ⊆ _seen_jobs_cache st
    ∧ _seen_jobs_cache st ∖ list_to_set (yielded old_docs) ⊆ _seen_jobs_cache st'
    ∧ (_db st = None → _seen_jobs_cache st' = _seen_jobs_cache st).
Proof.
  unfold base_fetcher.cleanup. unfold try_, and_then at 1. unfold gets at 1.
  destruct (base_fetcher.seen_jobs_truthy self st).
  2:{ exists st. unfold pure. set_solver. }
  unfold and_then.
  destruct (cleanup_seen_jobs_spec 30 old_docs commit st)
    as (st1 & -> & H1 & H2 & H3 & H4).
  destruct (close_seen_jobs_spec write st1) as (st2 & -> & H5 & H6).
  exists st2. rewrite H5. repeat split; try done.
  intros Hdb. by rewrite (H4 Hdb).
Qed.

(** One operation: it returns, and keeps every identity that the remote
    store did not report to it as expired. *)
Lemma perform_spec (op : operation) st :
  ∃ st',
    perform op st = (st', Return tt)
    ∧ _seen_jobs_cache st ∖ expired op ⊆ _seen_jobs_cache st'.
Proof.
  destruct op as [apps init remote|remote|url|remote_set write url
                 |self old_docs commit write]; cbn [perform expired].
  - destruct (initialize_seen_jobs_spec apps init remote st) as (st' & -> & H).
    exists st'. set_solver.
  - destruct (load_seen_jobs_spec remote st) as (st' & -> & H & _).
    exists st'. set_solver.
  - exists st. split; [done | set_solver].
  - destruct (mark_seen_spec remote_set write url st) as (st' & -> & H).
    exists st'. split; [done|]. rewrite H.
    destruct url as [u|]; [destruct (str_truthy u)|]; set_solver.
  - destruct (fetcher_cleanup_spec old_docs commit write self st)
      as (st' & -> & _ & H & _).
    by exists st'.
Qed.

(** Any sequence of operations. *)
Lemma perform_all_spec (ops : list operation) st :
  ∃ st',
    for_each ops perform st = (st', Return tt)
    ∧ _seen_jobs_cache st ∖ ⋃ (expired <$> ops) ⊆ _seen_jobs_cache st'.
Proof.
  revert st. induction ops as [|op ops IH]; intros st.
  - exists st. split; [done | set_solver].
  - cbn [for_each]. unfold and_then.
    destruct (perform_spec op st) as (st1 & -> & H1).
    destruct (IH st1) as (st' & -> & H2).
    exists st'. split; [done|].
    cbn [fmap list_fmap union_list foldr].
    change (list_fmap _ _ ?f ?l) with (f <$> l). set_solver.
Qed.

End seen_jobs_store.

(** ** The orchestrator's store *)

Section orchestrator_store.

Import bot.
Implicit Types (self : InternshipFinderBot) (remote : stream).
Implicit Types (remote_set : pyresult unit) (write : written).

Lemma fetch_ids_spec remote self :
  _fetch_ids remote self
  = (emit (RemoteStream "internships") self, Return (remote_ids remote)).
Proof. by destruct remote. Qed.

Lemma load_seen_urls_spec remote write self :
  ∃ self',
    _load_seen_urls remote write self = (self', Return tt)
    ∧ seen_urls self' = local_ids (seen_urls_file self) ∪ remote_ids remote
    ∧ fetchers self' = fetchers self.
Proof.
  unfold _load_seen_urls.
  unfold and_then at 1. unfold modify at 1. unfold and_then at 1.
  set (self0 := with_seen_urls (fun _ => ∅) self).
  assert (∃ self1 loaded,
             try_
               (f <- gets seen_urls_file ;;
                match f with
                | Missing => pure false
                | Unreadable => raise ValueError
                | Stored (JList data) =>
                    modify (with_seen_urls (update data)) ;; pure true
                | Stored JOther => pure false
                end)%act
               Exception (fun _ => pure false) self0 = (self1, Return loaded)
             ∧ seen_urls self1 = local_ids (seen_urls_file self)
             ∧ fetchers self1 = fetchers self
             ∧ seen_urls_file self1 = seen_urls_file self)
    as (self1 & loaded & -> & Hseen & Hf & Hfile).
  { subst self0. destruct self as [seen fs f tr]. cbn.
    unfold try_, and_then, gets, modify, pure, raise, Exception. cbn.
    destruct f as [|[L|]|]; cbn; do 2 eexists; (split; [reflexivity|]); cbn;
      rewrite ?update_union; repeat split; set_solver. }
  unfold try_ at 1. unfold and_then at 1. rewrite fetch_ids_spec.
  case_bool_decide as Hids; cbn [negb].
  { exists (emit (RemoteStream "internships") self1). unfold pure.
    cbn. rewrite Hids. repeat split; try done. set_solver. }
  unfold and_then at 1. unfold gets at 1. unfold and_then at 1.
  unfold modify at 1. unfold and_then at 1. unfold gets at 1.
  match goal with |- context [if ?b then _ else _] => destruct b end.
  - unfold try_, and_then, gets, call, modify, outcome, pure, Exception.
    destruct write; eexists; (split; [reflexivity|]); cbn;
      rewrite Hseen; repeat split; try done.
  - eexists; (split; [reflexivity|]); cbn; rewrite Hseen; repeat split; try done.
Qed.

Lemma save_internship_spec sha remote_set write (i : models.Internship) self :
  ∃ self',
    save_internship sha remote_set write i self = (self', Return tt)
    ∧ seen_urls self' = {[models.url i]} ∪ seen_urls self
    ∧ fetchers self' = fetchers self.
Proof.
  unfold save_internship, call.
  unfold try_, and_then, gets, modify, outcome, pure, Exception.
  destruct remote_set, write; eexists; (split; [reflexivity|]); done.
Qed.

End orchestrator_store.

(** ** The recency filter *)

Section recency_filter.

Variable fromisoformat : string -> option datetime.
Implicit Types (d : dict) (ds : list dict) (clock : Z).

(** The bound [filter_last_24_hours] compares with. *)
Let t24 clock := sub_timedelta (now_utc clock) (24 * hour).

Lemma posted_recently_spec clock d :
  helpers.posted_recently fromisoformat (t24 clock) d
  = if datable d then Return (recent fromisoformat clock d)
    else Raise AttributeError.
Proof.
  unfold helpers.posted_recently, datable, recent, posted_at, t24.
  destruct (d !! "posted_date") as [[|n|s|dt]|]; cbn; try done.
  - destruct (Z.eqb_spec n 0); cbn; done.
  - unfold str_truthy. destruct (negb (String.eqb s "")); cbn; [|done].
    destruct (fromisoformat s) as [dt|]; cbn; [|done].
    unfold instant, datetime_ge. destruct dt as [w [o|]]; cbn.
    + do 2 f_equal. apply bool_decide_ext. lia.
    + do 2 f_equal. apply bool_decide_ext. lia.
  - unfold instant, datetime_ge. destruct dt as [w [o|]]; cbn.
    + do 2 f_equal. apply bool_decide_ext. lia.
    + do 2 f_equal. apply bool_decide_ext. lia.
Qed.

Lemma filter_loop_spec clock ds acc :
  helpers.filter_loop fromisoformat (t24 clock) ds acc
  = if forallb datable ds
    then Return (acc ++ filter (fun d => recent fromisoformat clock d = true) ds)
    else Raise AttributeError.
Proof.
  revert acc. induction ds as [|d ds IH]; intros acc;
    cbn [helpers.filter_loop forallb].
  - by rewrite app_nil_r.
  - rewrite posted_recently_spec. destruct (datable d); cbn [bind andb]; [|done].
    rewrite IH. destruct (forallb datable ds); [|done].
    rewrite filter_cons. destruct (recent fromisoformat clock d) eqn:Hr.
    + rewrite decide_True by done. by rewrite <- app_assoc.
    + rewrite decide_False by done. done.
Qed.

(** The filter keeps the recent dictionaries, in order, unless one of them
    holds a timestamp it cannot handle. *)
Lemma filter_last_24_hours_spec clock ds :
  helpers.filter_last_24_hours fromisoformat clock ds
  = if forallb datable ds
    then Return (filter (fun d => recent fromisoformat clock d = true) ds)
    else Raise AttributeError.
Proof.
  unfold helpers.filter_last_24_hours. destruct ds as [|d ds]; [done|].
  apply (filter_loop_spec clock (d :: ds) []).
Qed.

Lemma missing_or_unparseable_not_recent clock d :
  missing_or_unparseable fromisoformat d = true →
  datable d = true ∧ recent fromisoformat clock d = false.
Proof.
  unfold missing_or_unparseable, datable, recent, posted_at, str_truthy.
  destruct (d !! "posted_date") as [[|n|s|dt]|]; cbn; try done.
  - destruct (Z.eqb_spec n 0); cbn; done.
  - destruct (negb (String.eqb s "")); cbn; [|done].
    intros H%bool_decide_eq_true. by rewrite H.
Qed.

Lemma posted_at_datable d dt :
  posted_at fromisoformat d = Some dt → datable d = true.
Proof.
  unfold posted_at, datable.
  by destruct (d !! "posted_date") as [[|n|s|dt']|].
Qed.

(** Dropping a dictionary that is not recent changes nothing. *)
Lemma filter_last_24_hours_without clock d ds1 ds2 :
  datable d = true → recent fromisoformat clock d = false →
  helpers.filter_last_24_hours fromisoformat clock (ds1 ++ d :: ds2)
  = helpers.filter_last_24_hours fromisoformat clock (ds1 ++ ds2).
Proof.
  intros Hd Hr. rewrite !filter_last_24_hours_spec.
  rewrite !forallb_app. cbn [forallb]. rewrite Hd. cbn [andb].
  rewrite !filter_app, filter_cons, decide_False; [done|].
  by rewrite Hr.
Qed.

Lemma filter_last_24_hours_elem clock d ds out :
  helpers.filter_last_24_hours fromisoformat clock ds = Return out →
  d ∈ out ↔ d ∈ ds ∧ recent fromisoformat clock d = true.
Proof.
  rewrite filter_last_24_hours_spec.
  destruct (forallb datable ds); [|done].
  intros [= <-]. by rewrite list_elem_of_filter, (comm and).
Qed.

(** A record built without a date carries the time it was built at. *)
Lemma undated_record_posted_at built title company location url source
    description (kwargs : dict) :
  kwargs !! "posted_date" = None →
  posted_at fromisoformat
    (models.to_dict
       (models.__init__ built title company location url source None
          description kwargs))
  = Some (utcnow built).
Proof.
  intros Hk. unfold posted_at, models.to_dict.
  rewrite lookup_union_r by done. done.
Qed.

(** ... and is kept by the filter for 24 hours. *)
Lemma undated_record_kept clock built title company location url source
    description (kwargs : dict) :
  kwargs !! "posted_date" = None →
  clock - 24 * hour <= built →
  helpers.filter_last_24_hours fromisoformat clock
    [models.to_dict
       (models.__init__ built title company location url source None
          description kwargs)]
  = Return
      [models.to_dict
         (models.__init__ built title company location url source None
            description kwargs)].
Proof.
  intros Hk Hb.
  pose proof (undated_record_posted_at built title company location url
                source description kwargs Hk) as Hat.
  rewrite filter_last_24_hours_spec. cbn [forallb].
  rewrite (posted_at_datable _ _ Hat). cbn [andb].
  rewrite filter_cons, decide_True; [done|].
  unfold recent. rewrite Hat. apply bool_decide_eq_true.
  unfold instant, utcnow. cbn [wall tzinfo default]. lia.
Qed.

End recency_filter.

(** The record [_parse_job] returns is built by the constructor from the
    date [published_date] found. *)
Lemma parse_job_builds (strptime : string -> option datetime) (clock : Z)
    (job_data : dict) (r : models.Internship) :
  remotive_fetcher._parse_job strptime clock job_data = Return (Some r) →
  ∃ title company location url description,
    r = models.__init__ clock title company location url
          remotive_fetcher.SOURCE_NAME
          (remotive_fetcher.published_date strptime job_data)
          (Some description) ∅.
Proof.
  unfold remotive_fetcher._parse_job, try_except.
  destruct (remotive_fetcher.get_str job_data "title" "") as [title|];
    cbn [bind Exception]; [|done].
  destruct (remotive_fetcher.get_str job_data "company_name" "") as [company|];
    cbn [bind Exception]; [|done].
  destruct (remotive_fetcher.get_str job_data "url" "") as [url|];
    cbn [bind Exception]; [|done].
  destruct (negb _); [done|].
  match goal with |- context [bind ?m _] => destruct m as [location|] end;
    cbn [bind Exception]; [|done].
  match goal with |- context [bind ?m _] => destruct m as [description|] end;
    cbn [bind Exception]; [|done].
  intros [= <-]. eauto 10.
Qed.

(** ** Notifications *)

Section notifications.

Import bot.
Implicit Types (self : InternshipFinderBot) (post : nat -> pyresult Z).
Implicit Types (batches : list (list models.Internship)).

Lemma post_chunks_spec post (is_daily_update : bool) batches (first : nat) self :
  ∃ self',
    for_each (zip (seq first (length batches)) batches)
      (fun '(k, chunk) =>
         try_
           (status <- call (TelegramPost chunk is_daily_update) (post k) ;;
            pure tt)%act
           Exception
           (fun _ => pure tt)) self
    = (self', Return tt)
    ∧ trace self'
      = trace self
        ++ ((fun chunk => TelegramPost chunk is_daily_update) <$> batches)
    ∧ seen_urls self' = seen_urls self.
Proof.
  revert first self. induction batches as [|chunk batches IH]; intros first self.
  - exists self. cbn. by rewrite app_nil_r.
  - cbn [length seq zip zip_with for_each].
    unfold and_then at 1. unfold try_ at 1. unfold and_then at 1.
    unfold call at 1. unfold and_then at 1. unfold modify at 1.
    unfold outcome at 1.
    destruct (IH (S first) (emit (TelegramPost chunk is_daily_update) self))
      as (self' & Hrun & Htrace & Hseen).
    exists self'. destruct (post first); cbn [pure Exception]; rewrite Hrun;
      (split; [done|]); rewrite Htrace, Hseen; cbn; by rewrite <- app_assoc.
Qed.

(** With credentials, one post per chunk, in the order of the chunks,
    whatever the posts answer. *)
Lemma send_telegram_notification_spec post internships is_daily_update self :
  ∃ self',
    send_telegram_notification true post internships is_daily_update self
    = (self', Return tt)
    ∧ trace self'
      = trace self
        ++ ((fun chunk => TelegramPost chunk is_daily_update)
              <$> chunks 5 ((length internships + 4) / 5) internships)
    ∧ seen_urls self' = seen_urls self.
Proof.
  unfold send_telegram_notification.
  destruct internships as [|i rest] eqn:Hi.
  - exists self. cbn. by rewrite app_nil_r.
  - rewrite <- Hi. clear Hi. cbn [negb].
    unfold and_then, outcome. rewrite chunk_list_by_5.
    apply post_chunks_spec.
Qed.

End notifications.

(** * The claims *)

(** ** C1: hydration *)

Example hydration_of_ab_and_bc :
  bot.seen_urls
    (exec (bot._load_seen_urls (Streamed ["b"; "c"]) Written)
       (bot.set_file (Stored (JList ["a"; "b"])) new_bot))
  = {["a"; "b"; "c"]}.
Proof. vm_compute. reflexivity. Qed.

(** C1, as stated, fails on [load_seen_jobs]: with a remote client whose
    enumeration succeeds it returns before it reads the local mirror.  From
    the local mirror [a, b] and the remote ids [b, c] the cache ends up as
    {b, c}, not {a, b, c}. *)
Lemma load_seen_jobs_skips_local_mirror :
  seen_jobs._seen_jobs_cache
    (exec (seen_jobs.load_seen_jobs (Streamed ["b"; "c"]))
       (seen_jobs.set_db (Some Client)
          (seen_jobs.set_file (Stored (JList ["a"; "b"])) new_module)))
  ≠ {["a"; "b"; "c"]}.
Proof.
  assert (seen_jobs._seen_jobs_cache
            (exec (seen_jobs.load_seen_jobs (Streamed ["b"; "c"]))
               (seen_jobs.set_db (Some Client)
                  (seen_jobs.set_file (Stored (JList ["a"; "b"])) new_module)))
          = {["b"; "c"]}) as -> by (vm_compute; reflexivity).
  intros H. assert ("a" ∈ ({["b"; "c"]} : gset string)) as Ha
    by (rewrite H; set_solver).
  set_solver.
Qed.

(** C1 (amended): hydration union.  The orchestrator's [_load_seen_urls],
    from a local mirror holding the list [L] and a remote enumeration that
    yields the ids [R], returns with [seen_urls] equal to the union of [L]
    and [R], whatever was there before and whether or not the merged set
    can be written back.  The cache of [seen_jobs] is hydrated otherwise:
    [load_seen_jobs] adds to what the cache holds the remote ids alone when
    there is a client and its enumeration succeeds, the local list alone
    when there is no client, and both only when the enumeration breaks off
    (after the ids [R]). *)
Theorem hydration_union (L R : list string) (write : written)
    (self : bot.InternshipFinderBot) (remote : stream) (st : seen_jobs.state) :
  let mirrored := bot.set_file (Stored (JList L)) self in
  let jobs db := seen_jobs.set_db db (seen_jobs.set_file (Stored (JList L)) st) in
  bot.seen_urls (exec (bot._load_seen_urls (Streamed R) write) mirrored)
    = list_to_set L ∪ list_to_set R
  ∧ result (bot._load_seen_urls (Streamed R) write) mirrored = Return tt
  ∧ seen_jobs._seen_jobs_cache
      (exec (seen_jobs.load_seen_jobs (Streamed R)) (jobs (Some Client)))
    = seen_jobs._seen_jobs_cache st ∪ list_to_set R
  ∧ seen_jobs._seen_jobs_cache
      (exec (seen_jobs.load_seen_jobs remote) (jobs None))
    = seen_jobs._seen_jobs_cache st ∪ list_to_set L
  ∧ seen_jobs._seen_jobs_cache
      (exec (seen_jobs.load_seen_jobs (Broken R)) (jobs (Some Client)))
    = seen_jobs._seen_jobs_cache st ∪ (list_to_set R ∪ list_to_set L).
Proof.
  intros mirrored jobs. unfold exec, result.
  destruct (load_seen_urls_spec (Streamed R) write mirrored)
    as (self' & -> & Hseen & _).
  destruct (load_seen_jobs_spec (Streamed R) (jobs (Some Client)))
    as (st1 & -> & H1 & _).
  destruct (load_seen_jobs_spec remote (jobs None)) as (st2 & -> & H2 & _).
  destruct (load_seen_jobs_spec (Broken R) (jobs (Some Client)))
    as (st3 & -> & H3 & _).
  cbn [fst snd]. rewrite Hseen, H1, H2, H3. done.
Qed.

(** ** C2: what leaves the store *)

(** C2, as stated, fails on the adapter cleanup: with a remote client,
    [cleanup_seen_jobs] takes out of the cache every identity the store
    reports as older than 30 days. *)
Lemma adapter_cleanup_unmarks_identity :
  let st :=
    seen_jobs.set_db (Some Client)
      (seen_jobs.with_cache (fun _ => {["a"]}) new_module) in
  ¬ (seen_jobs._seen_jobs_cache st
     ⊆ seen_jobs._seen_jobs_cache
         (exec (perform (adapter_cleanup (initialized rss) (Streamed ["a"])
                           (fun _ => Return tt) Written)) st)).
Proof.
  cbn zeta.
  assert (seen_jobs._seen_jobs_cache
            (exec (perform (adapter_cleanup (initialized rss) (Streamed ["a"])
                              (fun _ => Return tt) Written))
               (seen_jobs.set_db (Some Client)
                  (seen_jobs.with_cache (fun _ => {["a"]}) new_module)))
          = ∅) as -> by (vm_compute; reflexivity).
  cbn. set_solver.
Qed.

(** C2 (amended): identities leave the store only by expiry.  For every
    sequence of operations on the seen-jobs store (initialize, hydrate,
    has_seen, mark_seen, adapter cleanup), every operation returns, and
    every identity seen before the sequence is still seen after it unless
    the remote store reported it, to one of the cleanups, as older than 30
    days.  Without a remote client the adapter cleanup removes nothing. *)
Theorem dedup_entries_leave_only_by_expiry (ops : list operation)
    (st : seen_jobs.state) (self : base_fetcher.BaseFetcher)
    (old_docs : stream) (commit : nat -> pyresult unit)
    (write : written) :
  seen_jobs._seen_jobs_cache st ∖ ⋃ (expired <$> ops)
    ⊆ seen_jobs._seen_jobs_cache (exec (for_each ops perform) st)
  ∧ result (for_each ops perform) st = Return tt
  ∧ seen_jobs._seen_jobs_cache
      (exec (base_fetcher.cleanup old_docs commit write self)
         (seen_jobs.set_db None st))
    = seen_jobs._seen_jobs_cache st.
Proof.
  unfold exec, result.
  destruct (perform_all_spec ops st) as (st' & -> & H).
  destruct (fetcher_cleanup_spec old_docs commit write self
              (seen_jobs.set_db None st)) as (st'' & -> & _ & _ & Hnone).
  cbn [fst snd]. repeat split; try done. by apply Hnone.
Qed.

(** ** C3: records without a usable timestamp *)

(** C3, as stated, fails for a record whose posting carried no timestamp,
    or one that does not parse: the fetcher passes no date, and
    [Internship.__init__] stamps the record with the time it is built at.
    An hour later the record passes the filter, is among the fresh records
    of the cycle and is posted to the sink. *)
Lemma undated_record_is_fresh :
  let self :=
    {| bot.seen_urls := ∅; bot.fetchers := [remoteok];
       bot.seen_urls_file := Missing; bot.trace := [] |} in
  result (bot.select_fresh no_iso_string (some_day + hour) [undated]) self
  = Return [undated]
  ∧ TelegramPost [undated] true
    ∈ bot.trace
        (exec (bot.run_body no_iso_string some_digest (some_day + hour)
                 (fun _ => Finished (Return (Some [undated])))
                 (fun _ => Return tt) (fun _ => Written)
                 true (fun _ => Return 200) (Return 200)) self)
  ∧ ∃ unparsed,
      remotive_fetcher._parse_job no_iso_string some_day job_posted_last_week
      = Return (Some unparsed)
      ∧ result (bot.select_fresh no_iso_string (some_day + hour) [unparsed]) self
        = Return [unparsed].
Proof.
  cbn zeta. split; [|split].
  - vm_compute. reflexivity.
  - match goal with |- _ ∈ ?t =>
      assert (t = [RemoteSet "internships" "https___example.com_jobs_1";
                   FileWrite "seen_urls.json"
                     (JList ["https://example.com/jobs/1"]);
                   TelegramPost [undated] true]) as ->
        by (vm_compute; reflexivity)
    end.
    set_solver.
  - eexists. split; [vm_compute; reflexivity|]. vm_compute. reflexivity.
Qed.

(** C3 (amended): the recency filter fails closed on dictionaries.  A
    dictionary whose [posted_date] is absent, false or a string that does
    not parse is dropped by [filter_last_24_hours]: leaving it out of the
    input changes nothing, and no list the filter returns holds it.  A
    record built without a date is not such a dictionary: it carries the
    time it was built at, and the filter keeps it for the next 24 hours.
    That is the record a fetcher builds from a posting whose date is
    missing or does not parse (shown for [RemotiveFetcher._parse_job]). *)
Theorem recency_fails_closed_on_dictionaries
    (fromisoformat strptime : string -> option datetime) (clock : Z) :
  (∀ (d : dict) (ds1 ds2 : list dict),
      missing_or_unparseable fromisoformat d = true →
      helpers.filter_last_24_hours fromisoformat clock (ds1 ++ d :: ds2)
      = helpers.filter_last_24_hours fromisoformat clock (ds1 ++ ds2)
      ∧ ∀ out,
          helpers.filter_last_24_hours fromisoformat clock (ds1 ++ d :: ds2)
          = Return out →
          d ∉ out)
  ∧ (∀ (built : Z) (title company location url source : string)
       (description : option string) (kwargs : dict),
        kwargs !! "posted_date" = None →
        clock - 24 * hour <= built →
        let d :=
          models.to_dict
            (models.__init__ built title company location url source None
               description kwargs) in
        helpers.filter_last_24_hours fromisoformat clock [d] = Return [d])
  ∧ (∀ (built : Z) (job_data : dict) (r : models.Internship),
        remotive_fetcher.published_date strptime job_data = None →
        remotive_fetcher._parse_job strptime built job_data = Return (Some r) →
        clock - 24 * hour <= built →
        helpers.filter_last_24_hours fromisoformat clock [models.to_dict r]
        = Return [models.to_dict r]).
Proof.
  split; [|split].
  - intros d ds1 ds2 Hd.
    destruct (missing_or_unparseable_not_recent fromisoformat clock d Hd)
      as [Hdatable Hnot].
    split; [by apply filter_last_24_hours_without|].
    intros out Hout [_ Hrecent]%(filter_last_24_hours_elem _ _ _ _ _ Hout).
    congruence.
  - intros built title company location url source description kwargs Hk Hb d.
    by apply undated_record_kept.
  - intros built job_data r Hdate Hparse Hb.
    destruct (parse_job_builds strptime built job_data r Hparse)
      as (title & company & location & url & description & ->).
    rewrite Hdate. by apply undated_record_kept.
Qed.

Lemma recency_fails_closed_witness :
  helpers.filter_last_24_hours no_iso_string some_day
    [{["posted_date" := VStr "last week"]}]
  = helpers.filter_last_24_hours no_iso_string some_day []
  ∧ helpers.filter_last_24_hours no_iso_string (some_day + hour)
      [models.to_dict undated]
    = Return [models.to_dict undated]
  ∧ helpers.filter_last_24_hours no_iso_string (some_day + hour)
      [models.to_dict
         (models.__init__ some_day "Python Developer Intern" "Acme"
            "Pune, India" "https://example.com/jobs/2" "Remotive" None
            (Some "") ∅)]
    = Return
        [models.to_dict
           (models.__init__ some_day "Python Developer Intern" "Acme"
              "Pune, India" "https://example.com/jobs/2" "Remotive" None
              (Some "") ∅)].
Proof.
  split; [|split].
  - apply (proj1 (recency_fails_closed_on_dictionaries no_iso_string
                    no_iso_string some_day)
             {["posted_date" := VStr "last week"]} [] []).
    reflexivity.
  - apply (proj1 (proj2 (recency_fails_closed_on_dictionaries no_iso_string
                           no_iso_string (some_day + hour)))).
    + reflexivity.
    + vm_compute. discriminate.
  - apply (proj2 (proj2 (recency_fails_closed_on_dictionaries no_iso_string
                           no_iso_string (some_day + hour)))
             some_day job_posted_last_week).
    + reflexivity.
    + vm_compute. reflexivity.
    + vm_compute. discriminate.
Defined.

(** ** C4: the boundary of the recency window *)

(** C4: recency boundary.  Evaluate [filter_last_24_hours] at time [t] on
    a list that holds a dictionary [d] whose timestamp (a [datetime], or a
    string that parses to one; a naive value is read as UTC) denotes [dt],
    every timestamp of the list being of a type the filter handles.  The
    filter returns a list; [d] is not in it when [dt] is 24 hours and one
    second before [t], and is in it when [dt] is 23 hours 59 minutes before
    [t]. *)
Theorem recency_boundary (fromisoformat : string -> option datetime)
    (t : Z) (ds : list dict) (d : dict) (dt : datetime) :
  d ∈ ds →
  forallb datable ds = true →
  posted_at fromisoformat d = Some dt →
  ∃ out,
    helpers.filter_last_24_hours fromisoformat t ds = Return out
    ∧ (instant dt = t - (24 * hour + 1 * second) → d ∉ out)
    ∧ (instant dt = t - (23 * hour + 59 * minute) → d ∈ out).
Proof.
  intros Hin Hds Hat.
  pose proof (filter_last_24_hours_spec fromisoformat t ds) as Hspec.
  rewrite Hds in Hspec. eexists. split; [exact Hspec|].
  split; intros Hdt; rewrite (filter_last_24_hours_elem _ _ _ _ _ Hspec);
    unfold recent; rewrite Hat, Hdt.
  - intros [_ H%bool_decide_eq_true]. unfold hour, minute, second, microsecond in H. lia.
  - split; [done|]. apply bool_decide_eq_true.
    unfold hour, minute, second, microsecond. lia.
Qed.

Lemma recency_boundary_witness :
  let late := {["posted_date" := VDatetime (utcnow (some_day - (24 * hour + 1 * second)))]} in
  let in_time := {["posted_date" := VDatetime (now_utc (some_day - (23 * hour + 59 * minute)))]} in
  (∃ out,
      helpers.filter_last_24_hours no_iso_string some_day [late; in_time]
      = Return out
      ∧ late ∉ out)
  ∧ (∃ out,
        helpers.filter_last_24_hours no_iso_string some_day [late; in_time]
        = Return out
        ∧ in_time ∈ out).
Proof.
  cbn zeta. split.
  - destruct (recency_boundary no_iso_string some_day
                [{["posted_date" := VDatetime (utcnow (some_day - (24 * hour + 1 * second)))]};
                 {["posted_date" := VDatetime (now_utc (some_day - (23 * hour + 59 * minute)))]}]
                {["posted_date" := VDatetime (utcnow (some_day - (24 * hour + 1 * second)))]}
                (utcnow (some_day - (24 * hour + 1 * second))))
      as (out & Hout & Hlate & _).
    + apply list_elem_of_here.
    + reflexivity.
    + reflexivity.
    + exists out. split; [exact Hout|]. apply Hlate. reflexivity.
  - destruct (recency_boundary no_iso_string some_day
                [{["posted_date" := VDatetime (utcnow (some_day - (24 * hour + 1 * second)))]};
                 {["posted_date" := VDatetime (now_utc (some_day - (23 * hour + 59 * minute)))]}]
                {["posted_date" := VDatetime (now_utc (some_day - (23 * hour + 59 * minute)))]}
                (now_utc (some_day - (23 * hour + 59 * minute))))
      as (out & Hout & _ & Hin).
    + apply list_elem_of_further, list_elem_of_here.
    + reflexivity.
    + reflexivity.
    + exists out. split; [exact Hout|]. apply Hin. reflexivity.
Defined.

(** ** C5: batches *)

Example twelve_records_in_three_batches (fresh : list models.Internship) :
  length fresh = 12%nat →
  ∃ batches,
    helpers.chunk_list fresh 5 = Return batches
    ∧ length <$> batches = [5; 5; 2]%nat
    ∧ concat batches = fresh.
Proof.
  intros Hlen.
  destruct (chunk_list_by_5_spec fresh) as (batches & H & _ & _ & Hcat & Hsizes).
  exists batches. rewrite Hlen in Hsizes. done.
Qed.

(** C5: batch sizes and order.  For every list of fresh records,
    [chunk_list] with size 5 returns ceil(n/5) batches whose concatenation
    is the list: n div 5 batches of 5 records, then one of n mod 5 records
    when 5 does not divide n (so sizes 5, 5, 2 for 12 records); and
    [send_telegram_notification] posts one message per batch, in that
    order, whatever the sink answers to each post. *)
Theorem batch_sizes_and_order (fresh : list models.Internship)
    (post : nat -> pyresult Z) (is_daily_update : bool)
    (self : bot.InternshipFinderBot) :
  ∃ batches,
    helpers.chunk_list fresh 5 = Return batches
    ∧ length batches = ((length fresh + 4) / 5)%nat
    ∧ concat batches = fresh
    ∧ length <$> batches
      = replicate (length fresh / 5) 5%nat
        ++ (if (length fresh mod 5 =? 0)%nat then []
            else [(length fresh mod 5)%nat])
    ∧ (length fresh = 12%nat → length <$> batches = [5; 5; 2]%nat)
    ∧ bot.trace
        (exec (bot.send_telegram_notification true post fresh is_daily_update)
           self)
      = bot.trace self
        ++ ((fun batch => TelegramPost batch is_daily_update) <$> batches)
    ∧ result (bot.send_telegram_notification true post fresh is_daily_update)
        self
      = Return tt.
Proof.
  destruct (chunk_list_by_5_spec fresh)
    as (batches & H & Hdef & Hlen & Hcat & Hsizes).
  exists batches. repeat split; try done.
  - intros H12. by rewrite H12 in Hsizes.
  - unfold exec.
    destruct (send_telegram_notification_spec post fresh is_daily_update self)
      as (self' & -> & Htrace & _).
    by rewrite Hdef.
  - unfold result.
    by destruct (send_telegram_notification_spec post fresh is_daily_update self)
      as (self' & -> & _).
Qed.

Lemma batch_sizes_and_order_witness :
  ∃ batches,
    helpers.chunk_list (replicate 12 undated) 5 = Return batches
    ∧ length <$> batches = [5; 5; 2]%nat.
Proof.
  destruct (batch_sizes_and_order (replicate 12 undated)
              (fun _ => Raise OtherException) true new_bot)
    as (batches & H & _ & _ & _ & H12 & _).
  exists batches. split; [exact H|]. apply H12. reflexivity.
Defined.

(** ** C6: the fetch phase *)

Example one_fetcher_raises_the_other_returns_three :
  let self :=
    {| bot.seen_urls := ∅; bot.fetchers := [rss; remoteok];
       bot.seen_urls_file := Missing; bot.trace := [] |} in
  let three :=
    [posting some_day "https://example.com/jobs/1" None;
     posting some_day "https://example.com/jobs/2" None;
     posting some_day "https://example.com/jobs/3" None] in
  let fetch (f : base_fetcher.BaseFetcher) :=
    if String.eqb (base_fetcher.source_name f) "rss"
    then Finished (Raise OtherException)
    else Finished (Return (Some three)) in
  bot.fetch_all_internships fetch self = (self, Return three).
Proof. vm_compute. reflexivity. Qed.



(** ** C7: an identity stays recorded when the writes fail *)

(** C7, as stated, fails for the empty identity: [mark_seen] returns at
    once on a false [url], so the empty string is not in the cache after
    the call. *)
Lemma mark_seen_skips_empty_identity :
  "" ∉ seen_jobs._seen_jobs_cache
         (exec (seen_jobs.mark_seen (Return tt) Written (Some ""))
            new_module).
Proof. vm_compute. set_solver. Qed.

(** C7 (amended): no rollback on persistence failure.  For every identity
    [u] other than the empty string, whatever the write to the remote
    store and the write of the local file do (succeed, raise, or for
    the file break off after it was opened),
    [mark_seen] returns and [u] is in the cache, with all that was there
    before; and [save_internship] returns with the record's URL (empty or
    not) in [seen_urls], with all that was there before. *)
Theorem no_rollback_on_persistence_failure (sha : string -> string)
    (remote_set : pyresult unit) (write : written) (u : string)
    (i : models.Internship) (st : seen_jobs.state)
    (self : bot.InternshipFinderBot) :
  u ≠ "" →
  (result (seen_jobs.mark_seen remote_set write (Some u)) st = Return tt
   ∧ u ∈ seen_jobs._seen_jobs_cache
           (exec (seen_jobs.mark_seen remote_set write (Some u)) st)
   ∧ seen_jobs._seen_jobs_cache st
     ⊆ seen_jobs._seen_jobs_cache
         (exec (seen_jobs.mark_seen remote_set write (Some u)) st))
  ∧ (result (bot.save_internship sha remote_set write i) self = Return tt
     ∧ models.url i
       ∈ bot.seen_urls (exec (bot.save_internship sha remote_set write i) self)
     ∧ bot.seen_urls self
       ⊆ bot.seen_urls (exec (bot.save_internship sha remote_set write i) self)).
Proof.
  intros Hu. unfold exec, result.
  destruct (mark_seen_truthy remote_set write u st Hu) as (st' & -> & H).
  destruct (save_internship_spec sha remote_set write i self)
    as (self' & -> & H' & _).
  cbn [fst snd]. rewrite H, H'. set_solver.
Qed.

Lemma no_rollback_witness :
  "https://example.com/jobs/1"
  ∈ seen_jobs._seen_jobs_cache
      (exec (seen_jobs.mark_seen (Raise OtherException)
               (Interrupted OtherException false)
               (Some "https://example.com/jobs/1")) new_module)
  ∧ models.url undated
    ∈ bot.seen_urls
        (exec (bot.save_internship some_digest (Raise OtherException)
                 (Interrupted OtherException false) undated) new_bot).
Proof.
  pose proof (no_rollback_on_persistence_failure some_digest
                (Raise OtherException) (Interrupted OtherException false)
                "https://example.com/jobs/1" undated new_module new_bot
                ltac:(discriminate)) as [(_ & H1 & _) (_ & H2 & _)].
  split; [exact H1 | exact H2].
Defined.

(** ** C8: equality of records *)

(** C8, as stated, fails on its second half: the URL is only stripped of
    surrounding whitespace, so records whose URLs differ by a trailing
    slash, by the case of the host, or by the order of the query
    parameters are different records. *)
Lemma url_variants_are_distinct :
  models.__eq__ (posting some_day "https://example.com/jobs/1" None)
    (models.AnInternship (posting some_day "https://example.com/jobs/1/" None))
  = false
  ∧ models.__eq__ (posting some_day "https://example.com/jobs/1" None)
      (models.AnInternship (posting some_day "https://EXAMPLE.com/jobs/1" None))
    = false
  ∧ models.__eq__ (posting some_day "https://example.com/jobs?id=1&ref=rss" None)
      (models.AnInternship
         (posting some_day "https://example.com/jobs?ref=rss&id=1" None))
    = false.
Proof. vm_compute. done. Qed.

Example surrounding_whitespace_is_ignored :
  models.__eq__ (posting some_day "  https://example.com/jobs/1" None)
    (models.AnInternship (posting some_day "https://example.com/jobs/1 " None))
  = true.
Proof. vm_compute. reflexivity. Qed.

(** C8 (amended): identity equality.  Two records are equal exactly when
    their URLs are the same string, and equal records have the same hash;
    a record equals nothing that is not a record.  The URL of a record is
    the URL it was built from with leading and trailing whitespace
    removed, and nothing else is normalised: case, trailing slashes and
    query strings are compared as written. *)
Theorem identity_equality (hash : string -> Z) (R1 R2 : models.Internship) :
  (models.__eq__ R1 (models.AnInternship R2) = true
   ↔ models.url R1 = models.url R2)
  ∧ (models.__eq__ R1 (models.AnInternship R2) = true →
     models.__hash__ hash R1 = models.__hash__ hash R2)
  ∧ (∀ v, models.__eq__ R1 (models.AnotherObject v) = false)
  ∧ (∀ (clock : Z) (title company location url source : string)
       (posted_date : option datetime) (description : option string)
       (kwargs : dict),
        models.url
          (models.__init__ clock title company location url source
             posted_date description kwargs)
        = strip url).
Proof.
  unfold models.__eq__, models.__hash__.
  split; [apply bool_decide_eq_true|].
  split; [by intros ->%bool_decide_eq_true|].
  done.
Qed.

Lemma identity_equality_witness :
  models.__hash__ some_hash
    (posting some_day "  https://example.com/jobs/1" None)
  = models.__hash__ some_hash
      (posting (some_day + hour) "https://example.com/jobs/1 " (Some (utcnow 0))).
Proof.
  apply (proj1 (proj2 (identity_equality some_hash _ _))).
  vm_compute. reflexivity.
Defined.

(** ** C9: recording twice *)

(** C9: dedup idempotence.  Recording an identity a second time, whatever
    the writes of either call do, leaves the seen set as the first call
    left it, and so its cardinality: for [mark_seen] on the cache of
    [seen_jobs] (any [url], [None] and the empty string included) and for
    [save_internship] on [seen_urls]. *)
Theorem dedup_idempotence (sha : string -> string)
    (remote_set1 remote_set2 : pyresult unit) (write1 write2 : written)
    (u : option string) (i : models.Internship)
    (st : seen_jobs.state) (self : bot.InternshipFinderBot) :
  let once := exec (seen_jobs.mark_seen remote_set1 write1 u) st in
  let twice := exec (seen_jobs.mark_seen remote_set2 write2 u) once in
  let saved := exec (bot.save_internship sha remote_set1 write1 i) self in
  let saved_again := exec (bot.save_internship sha remote_set2 write2 i) saved in
  seen_jobs._seen_jobs_cache twice = seen_jobs._seen_jobs_cache once
  ∧ size (seen_jobs._seen_jobs_cache twice)
    = size (seen_jobs._seen_jobs_cache once)
  ∧ bot.seen_urls saved_again = bot.seen_urls saved
  ∧ size (bot.seen_urls saved_again) = size (bot.seen_urls saved).
Proof.
  cbn zeta. unfold exec.
  destruct (mark_seen_spec remote_set1 write1 u st) as (st1 & -> & H1).
  cbn [fst].
  destruct (mark_seen_spec remote_set2 write2 u st1) as (st2 & -> & H2).
  destruct (save_internship_spec sha remote_set1 write1 i self)
    as (self1 & -> & H3 & _).
  cbn [fst].
  destruct (save_internship_spec sha remote_set2 write2 i self1)
    as (self2 & -> & H4 & _).
  cbn [fst].
  assert (seen_jobs._seen_jobs_cache st2 = seen_jobs._seen_jobs_cache st1) as ->.
  { rewrite H2, H1. destruct u as [u|]; [destruct (str_truthy u)|]; set_solver. }
  assert (bot.seen_urls self2 = bot.seen_urls self1) as ->.
  { rewrite H4, H3. set_solver. }
  done.
Qed.

(** ** C10: a false [url] *)

(** C10: for a false [url] ([None] or the empty string), [mark_seen]
    returns at once and leaves everything as it was: the cache, the
    client, the local file, and the record of the calls made to the remote
    store and to the file system. *)
Theorem mark_seen_falsy_url_is_noop
    (remote_set : pyresult unit) (write : written)
    (st : seen_jobs.state) :
  seen_jobs.mark_seen remote_set write None st = (st, Return tt)
  ∧ seen_jobs.mark_seen remote_set write (Some "") st = (st, Return tt).
Proof. apply mark_seen_falsy. Qed.

(** * Further properties *)

(** ** [chunk_list] with any chunk size *)

Section chunking_any_size.

Context {A : Type}.
Implicit Types (l lst : list A) (k m : nat).

Lemma range_by_positive_step (n k : nat) :
  (0 < k)%nat →
  range 0 (Z.of_nat n) (Z.of_nat k)
  = Return ((fun j : nat => 0 + Z.of_nat j * Z.of_nat k)
              <$> seq 0 (if decide (n = 0%nat) then 0 else S ((n - 1) / k))).
Proof.
  intros Hk. unfold range.
  destruct (Z.eqb_spec (Z.of_nat k) 0); [lia|].
  destruct (Z.ltb_spec 0 (Z.of_nat k)); [|lia].
  do 3 f_equal.
  destruct (Z.ltb_spec 0 (Z.of_nat n)); destruct (decide (n = 0%nat)); try lia.
  replace (Z.of_nat n - 1 - 0) with (Z.of_nat (n - 1)) by lia.
  rewrite <- Nat2Z.inj_div. lia.
Qed.

Lemma chunk_list_by_positive lst k :
  (0 < k)%nat →
  helpers.chunk_list lst (Z.of_nat k)
  = Return (chunks k (if decide (length lst = 0%nat) then 0
                      else S ((length lst - 1) / k)) lst).
Proof.
  intros Hk. unfold helpers.chunk_list.
  rewrite range_by_positive_step by done. cbn [bind].
  f_equal. rewrite <- list_fmap_compose.
  rewrite <- (slices_chunks lst k _ 0). apply list_fmap_ext.
  intros _ j _. cbn.
  replace (0 + Z.of_nat j * Z.of_nat k) with (Z.of_nat (j * k)) by lia.
  apply (slice_take_drop lst (j * k) k).
Qed.

(** The chunks are full, but the last, which is not empty. *)
Lemma chunks_sizes k m l :
  (0 < k)%nat →
  (length l <= m * k)%nat →
  (m = 0%nat ∨ (m - 1) * k < length l)%nat →
  Forall (fun batch => (1 <= length batch <= k)%nat) (chunks k m l)
  ∧ ∀ i batch,
      chunks k m l !! i = Some batch → (S i < m)%nat → length batch = k.
Proof.
  intros Hk. revert l. induction m as [|m IH]; intros l Hle Hgt.
  - split; [constructor | intros i batch Hi; lia].
  - destruct Hgt as [|Hgt]; [lia|].
    replace (S m - 1)%nat with m in Hgt by lia.
    cbn [chunks].
    destruct (IH (drop k l)) as [IH1 IH2].
    { rewrite length_drop. lia. }
    { destruct m as [|m']; [by left | right].
      rewrite length_drop. replace (S m' - 1)%nat with m' by lia. lia. }
    split.
    + constructor; [|exact IH1]. rewrite length_take. lia.
    + intros [|i] batch Hi Hlt; cbn in Hi.
      * injection Hi as <-. rewrite length_take.
        assert (k <= length l)%nat; [|lia].
        destruct m as [|m']; [lia|]. lia.
      * apply (IH2 i batch Hi). lia.
Qed.

Lemma chunk_count_bounds (n k : nat) :
  (0 < k)%nat → n ≠ 0%nat →
  (n <= S ((n - 1) / k) * k)%nat ∧ ((n - 1) / k * k < n)%nat.
Proof.
  intros Hk Hn.
  pose proof (Nat.div_mod_eq (n - 1) k) as Hdm.
  pose proof (Nat.mod_upper_bound (n - 1) k ltac:(lia)) as Hr.
  rewrite (Nat.mul_comm k) in Hdm.
  cbn [Nat.mul]. lia.
Qed.

End chunking_any_size.

(** X1: for every positive chunk size [chunk_list] splits the list into
    consecutive chunks: their concatenation is the list, none is empty or
    longer than the size, and all but the last are full. *)
Theorem chunk_list_positive_size {A} (lst : list A) (chunk_size : Z) :
  0 < chunk_size →
  ∃ batches,
    helpers.chunk_list lst chunk_size = Return batches
    ∧ concat batches = lst
    ∧ Forall (fun batch => 1 <= Z.of_nat (length batch) <= chunk_size) batches
    ∧ ∀ i batch,
        batches !! i = Some batch → (S i < length batches)%nat →
        Z.of_nat (length batch) = chunk_size.
Proof.
  intros Hpos.
  assert (∃ k, chunk_size = Z.of_nat k ∧ (0 < k)%nat) as (k & -> & Hk)
    by (exists (Z.to_nat chunk_size); lia).
  eexists. split; [by apply chunk_list_by_positive|].
  destruct (decide (length lst = 0%nat)) as [H0|Hn].
  - destruct lst; [|done]. cbn.
    repeat split; [constructor | intros i batch Hi; done].
  - destruct (chunk_count_bounds (length lst) k Hk Hn) as [Hle Hgt].
    destruct (chunks_sizes k (S ((length lst - 1) / k)) lst Hk Hle) as [Hall Hfull].
    { right. by replace (S ((length lst - 1) / k) - 1)%nat
        with ((length lst - 1) / k)%nat by lia. }
    split; [by apply concat_chunks|]. split.
    + eapply Forall_impl; [exact Hall|]. cbn. lia.
    + intros i batch Hi Hlt. rewrite length_chunks in Hlt.
      rewrite (Hfull i batch Hi Hlt). done.
Qed.

Lemma chunk_list_positive_size_witness :
  ∃ batches,
    helpers.chunk_list [1; 2; 3; 4; 5; 6; 7]%nat 3 = Return batches
    ∧ concat batches = [1; 2; 3; 4; 5; 6; 7]%nat.
Proof.
  destruct (chunk_list_positive_size [1; 2; 3; 4; 5; 6; 7]%nat 3 ltac:(lia))
    as (batches & H & Hcat & _).
  by exists batches.
Defined.

(** X2: a chunk size of zero is refused with a [ValueError], and with a
    negative chunk size the result is the empty list, whatever the list
    holds. *)
Theorem chunk_list_nonpositive_size {A} (lst : list A) (chunk_size : Z) :
  chunk_size <= 0 →
  helpers.chunk_list lst chunk_size
  = if chunk_size =? 0 then Raise ValueError else Return [].
Proof.
  intros Hk. unfold helpers.chunk_list, range.
  destruct (Z.eqb_spec chunk_size 0); [done|].
  destruct (Z.ltb_spec 0 chunk_size); [lia|].
  destruct (Z.ltb_spec (Z.of_nat (length lst)) 0); [lia|]. done.
Qed.

Lemma chunk_list_nonpositive_size_witness :
  helpers.chunk_list [1; 2; 3]%nat (-2) = Return [].
Proof. apply (chunk_list_nonpositive_size [1; 2; 3]%nat (-2)). lia. Defined.

(** ** The recency filter as a whole *)

(** X3: [filter_last_24_hours] returns, in the order of the input, the
    dictionaries whose timestamp is no earlier than 24 hours before the
    call, unless some [posted_date] is a non-zero number: the attribute
    error of that value is not among the exceptions the loop catches, and
    the call raises it.  The filter has a lower bound only: a dictionary
    whose timestamp lies in the future is returned as well. *)
Theorem recency_filter_keeps_order_or_raises
    (fromisoformat : string -> option datetime) (clock : Z) (ds : list dict) :
  helpers.filter_last_24_hours fromisoformat clock ds
  = (if forallb datable ds
     then Return (filter (fun d => recent fromisoformat clock d = true) ds)
     else Raise AttributeError)
  ∧ (∀ d dt,
       posted_at fromisoformat d = Some dt →
       (recent fromisoformat clock d = true
        ↔ clock - 24 * hour <= instant dt)
       ∧ (clock <= instant dt → recent fromisoformat clock d = true)).
Proof.
  split; [apply filter_last_24_hours_spec|].
  intros d dt Hd. unfold recent. rewrite Hd.
  split; [apply bool_decide_eq_true|].
  intros Hfuture. apply bool_decide_eq_true.
  unfold hour, minute, second, microsecond. lia.
Qed.

(** ** The orchestrator's store: hydration, snapshots, round trips *)

Section orchestrator_store_more.

Import bot.
Implicit Types (self : InternshipFinderBot) (remote : stream).
Implicit Types (remote_set : pyresult unit) (write : written).
Implicit Types (i : models.Internship).

Lemma list_to_set_elements (s : gset string) : list_to_set (elements s) = s.
Proof. apply set_eq. intros x. by rewrite elem_of_list_to_set, elem_of_elements. Qed.

(** What [_load_seen_urls] leaves in the set and in the file. *)
Lemma load_seen_urls_file remote write self :
  ∃ self',
    _load_seen_urls remote write self = (self', Return tt)
    ∧ seen_urls self' = local_ids (seen_urls_file self) ∪ remote_ids remote
    ∧ seen_urls_file self'
      = match seen_urls_file self with
        | Stored (JList L) =>
            if bool_decide (remote_ids remote ⊆ list_to_set L)
            then seen_urls_file self
            else left_by write (JList (elements (seen_urls self')))
                   (seen_urls_file self)
        | _ => seen_urls_file self
        end.
Proof.
  unfold _load_seen_urls.
  unfold and_then at 1. unfold modify at 1. unfold and_then at 1.
  set (self0 := with_seen_urls (fun _ => ∅) self).
  assert (∃ self1,
             try_
               (f <- gets seen_urls_file ;;
                match f with
                | Missing => pure false
                | Unreadable => raise ValueError
                | Stored (JList data) =>
                    modify (with_seen_urls (update data)) ;; pure true
                | Stored JOther => pure false
                end)%act
               Exception (fun _ => pure false) self0
             = (self1,
                Return (match seen_urls_file self with
                        | Stored (JList _) => true
                        | _ => false
                        end))
             ∧ seen_urls self1 = local_ids (seen_urls_file self)
             ∧ seen_urls_file self1 = seen_urls_file self)
    as (self1 & -> & Hseen & Hfile).
  { subst self0. destruct self as [seen fs f tr]. cbn.
    unfold try_, and_then, gets, modify, pure, raise, Exception. cbn.
    destruct f as [|[L|]|]; cbn; eexists; (split; [reflexivity|]); cbn;
      rewrite ?update_union; split; set_solver. }
  unfold try_ at 1. unfold and_then at 1. rewrite fetch_ids_spec.
  case_bool_decide as Hids; cbn [negb].
  { exists (emit (RemoteStream "internships") self1). unfold pure.
    cbn. rewrite Hids, Hfile. split; [done|]. split; [set_solver|].
    destruct (seen_urls_file self) as [|[L|]|]; try done.
    rewrite bool_decide_true; [done | set_solver]. }
  unfold and_then at 1. unfold gets at 1. unfold and_then at 1.
  unfold modify at 1. unfold and_then at 1. unfold gets at 1.
  cbn [seen_urls emit with_seen_urls].
  destruct (seen_urls_file self) as [|[L|]|] eqn:Hf; cbn [andb].
  all: try (eexists; (split; [reflexivity|]); cbn; by rewrite Hseen, Hfile).
  cbn [local_ids] in Hseen.
  destruct (Z.ltb_spec 0
              (Z.of_nat (size (seen_urls self1 ∪ remote_ids remote))
               - Z.of_nat (size (seen_urls self1)))) as [Hnew|Hnew].
  - assert (¬ remote_ids remote ⊆ list_to_set L) as Hnot.
    { intros Hsub. rewrite Hseen in Hnew.
      replace (list_to_set L ∪ remote_ids remote) with (list_to_set L : gset string)
        in Hnew by set_solver. lia. }
    unfold try_, and_then, gets, call, modify, outcome, pure, Exception.
    destruct write as [|e|e []]; eexists; (split; [reflexivity|]); cbn;
      rewrite Hseen, ?Hfile; (split; [done|]);
      by rewrite ?bool_decide_false.
  - assert (remote_ids remote ⊆ list_to_set L) as Hsub.
    { rewrite Hseen in Hnew.
      pose proof (subseteq_size (list_to_set L : gset string)
                    (list_to_set L ∪ remote_ids remote) ltac:(set_solver)) as Hle.
      assert (size (list_to_set L ∪ remote_ids remote : gset string)
              = size (list_to_set L : gset string)) as Heq by lia.
      assert (list_to_set L ∪ remote_ids remote = (list_to_set L : gset string))
        as Hsame.
      { symmetry. apply set_eq. apply set_subseteq_size_equiv; [set_solver | lia]. }
      set_solver. }
    eexists; (split; [reflexivity|]); cbn; rewrite Hseen, Hfile.
    split; [done|]. by rewrite ?bool_decide_true.
Qed.

Lemma save_internship_file sha remote_set i self :
  ∃ self',
    save_internship sha remote_set Written i self = (self', Return tt)
    ∧ seen_urls self' = {[models.url i]} ∪ seen_urls self
    ∧ seen_urls_file self' = Stored (JList (elements (seen_urls self'))).
Proof.
  unfold save_internship, call.
  unfold try_, and_then, gets, modify, outcome, pure, Exception.
  destruct remote_set; eexists; (split; [reflexivity|]); done.
Qed.

End orchestrator_store_more.

(** X4: [_load_seen_urls] never raises and degrades tier by tier.  For
    a local file that is missing, unreadable, no list or a list of
    strings, and every answer of the remote store (its ids, or a failure),
    it returns with [seen_urls] holding exactly the ids of the local list,
    if there is one, and the remote ids, if the enumeration succeeded; what
    [seen_urls] held before is dropped.  It leaves the file alone unless
    the file held a list and the remote store brought an id the list
    lacked; then it writes the whole set, and the file holds that set
    when the write succeeds, is as before when the file could not be
    opened, and is the truncated file (unreadable, unless the whole text
    got through) when the write broke off after the opening. *)
Theorem hydration_degrades_and_never_raises (remote : stream)
    (write : written) (self : bot.InternshipFinderBot) :
  ∃ self',
    bot._load_seen_urls remote write self = (self', Return tt)
    ∧ bot.seen_urls self'
      = local_ids (bot.seen_urls_file self) ∪ remote_ids remote
    ∧ ((bot.seen_urls_file self' = bot.seen_urls_file self
        ∧ ∀ L, bot.seen_urls_file self = Stored (JList L) →
               remote_ids remote ⊆ list_to_set L)
       ∨ ∃ (L items : list string),
           bot.seen_urls_file self = Stored (JList L)
           ∧ ¬ remote_ids remote ⊆ list_to_set L
           ∧ list_to_set items = bot.seen_urls self'
           ∧ bot.seen_urls_file self'
             = match write with
               | Written => Stored (JList items)
               | NotOpened _ => bot.seen_urls_file self
               | Interrupted _ complete =>
                   if complete then Stored (JList items) else Unreadable
               end).
Proof.
  destruct (load_seen_urls_file remote write self)
    as (self' & Hrun & Hseen & Hfile).
  exists self'. split; [done|]. split; [done|].
  destruct (bot.seen_urls_file self) as [|[L|]|] eqn:Hf;
    try (left; by split).
  case_bool_decide as Hsub.
  { left. split; [done|]. by intros ? [= <-]. }
  right. exists L, (elements (bot.seen_urls self')).
  split; [done|]. split; [done|]. split; [apply list_to_set_elements|].
  rewrite Hfile. by destruct write.
Qed.

(** X5: the local file is a snapshot of the whole set.  [save_internship]
    attempts the write to the remote store first, under the encoded id,
    and whatever it answers adds the URL to [seen_urls] and writes the
    whole set to the local file.  Afterwards the file holds exactly
    [seen_urls] when the write succeeds, is as it was when the directory
    could not be made or the file not opened, and is the truncated file
    (unreadable, unless the whole text got through) when the write broke
    off after the opening. *)
Theorem save_internship_snapshot (sha : string -> string)
    (remote_set : pyresult unit) (write : written) (i : models.Internship)
    (self : bot.InternshipFinderBot) :
  let self' := exec (bot.save_internship sha remote_set write i) self in
  bot.seen_urls self' = {[models.url i]} ∪ bot.seen_urls self
  ∧ (∃ items,
        bot.trace self'
        = bot.trace self
          ++ [RemoteSet "internships" (bot._encode_doc_id sha (models.url i));
              FileWrite "seen_urls.json" (JList items)]
        ∧ list_to_set items = bot.seen_urls self'
        ∧ bot.seen_urls_file self'
          = match write with
            | Written => Stored (JList items)
            | NotOpened _ => bot.seen_urls_file self
            | Interrupted _ complete =>
                if complete then Stored (JList items) else Unreadable
            end).
Proof.
  cbn zeta. unfold exec, bot.save_internship, bot.call.
  unfold try_, and_then, gets, modify, outcome, pure, Exception.
  destruct remote_set, write as [|e'|e' []]; cbn; (split; [done|]);
    eexists; rewrite <- app_assoc; (split; [reflexivity|]);
    (split; [apply list_to_set_elements | done]).
Qed.

(** X6: round trip through the local file.  After a [save_internship]
    whose local write succeeded, a new hydration, whatever the remote
    store answers, finds the record's URL and every URL seen before:
    [is_duplicate] is true for it. *)
Theorem saved_url_survives_rehydration (sha : string -> string)
    (remote_set : pyresult unit) (write : written) (remote : stream)
    (i : models.Internship) (self : bot.InternshipFinderBot) :
  let saved := exec (bot.save_internship sha remote_set Written i) self in
  let restarted := exec (bot._load_seen_urls remote write) saved in
  result (bot.is_duplicate (models.url i)) restarted = Return true
  ∧ bot.seen_urls saved ⊆ bot.seen_urls restarted.
Proof.
  cbn zeta.
  destruct (save_internship_file sha remote_set i self) as (saved & Hrun & Hseen & Hfile).
  assert (exec (bot.save_internship sha remote_set Written i) self = saved)
    as -> by (unfold exec; by rewrite Hrun).
  destruct (load_seen_urls_file remote write saved) as (self' & Hload & Hseen' & _).
  assert (exec (bot._load_seen_urls remote write) saved = self')
    as -> by (unfold exec; by rewrite Hload).
  rewrite Hfile in Hseen'. cbn [local_ids] in Hseen'.
  rewrite list_to_set_elements in Hseen'.
  unfold result, bot.is_duplicate, gets. cbn [snd].
  split; [|set_solver].
  f_equal. apply bool_decide_eq_true. set_solver.
Qed.

(** ** Document ids *)

Section document_ids.

Variable sha256_hexdigest : string -> string.

Lemma substitute_safe c : bot.safe_char (substitute c) = true.
Proof. unfold substitute. by destruct (bot.safe_char c) eqn:H. Qed.

Lemma length_str_map f s : String.length (str_map f s) = String.length s.
Proof. induction s; cbn; congruence. Qed.

Lemma safe_string_substituted s : safe_string (str_map substitute s) = true.
Proof.
  unfold safe_string. induction s as [|c s IH]; [done|].
  cbn. by rewrite substitute_safe.
Qed.

Lemma substituted_same s : str_map substitute s = s ↔ safe_string s = true.
Proof.
  unfold safe_string. induction s as [|c s IH]; [done|].
  cbn. rewrite andb_true_iff, <- IH. unfold substitute at 1.
  destruct (bot.safe_char c) eqn:Hc.
  - split; [by intros [= ->] | by intros [_ ->]].
  - split; [|by intros [? _]]. intros [= <- _]. done.
Qed.

Lemma encode_doc_id_short url :
  (String.length url <= 1400)%nat →
  bot._encode_doc_id sha256_hexdigest url = str_map substitute url.
Proof.
  intros Hlen. unfold bot._encode_doc_id.
  change (fun c => if bot.safe_char c then c else "_"%char) with substitute.
  rewrite length_str_map.
  by destruct (Nat.ltb_spec 1400 (String.length url)); [lia|].
Qed.

End document_ids.

(** X7: for a URL of at most 1400 characters [_encode_doc_id] returns a
    string of the same length in which every character is a letter, a
    digit or one of [-_.~]; encoding it again changes nothing; and the id
    is the URL itself exactly when the URL has only such characters. *)
Theorem encode_doc_id_of_short_url (sha256_hexdigest : string -> string)
    (url : string) :
  (String.length url <= 1400)%nat →
  let doc_id := bot._encode_doc_id sha256_hexdigest url in
  String.length doc_id = String.length url
  ∧ safe_string doc_id = true
  ∧ bot._encode_doc_id sha256_hexdigest doc_id = doc_id
  ∧ (doc_id = url ↔ safe_string url = true).
Proof.
  intros Hlen. cbn zeta. rewrite !encode_doc_id_short; [|by rewrite length_str_map|done].
  split; [apply length_str_map|].
  split; [apply safe_string_substituted|].
  split; [|apply substituted_same].
  apply substituted_same, safe_string_substituted.
Qed.

Lemma encode_doc_id_of_short_url_witness :
  String.length
    (bot._encode_doc_id some_digest "https://example.com/jobs/1?ref=rss")
  = String.length "https://example.com/jobs/1?ref=rss"
  ∧ safe_string
      (bot._encode_doc_id some_digest "https://example.com/jobs/1?ref=rss")
    = true
  ∧ bot._encode_doc_id some_digest
      (bot._encode_doc_id some_digest "https://example.com/jobs/1?ref=rss")
    = bot._encode_doc_id some_digest "https://example.com/jobs/1?ref=rss"
  ∧ (bot._encode_doc_id some_digest "https://example.com/jobs/1?ref=rss"
     = "https://example.com/jobs/1?ref=rss"
     ↔ safe_string "https://example.com/jobs/1?ref=rss" = true).
Proof.
  apply (encode_doc_id_of_short_url some_digest
           "https://example.com/jobs/1?ref=rss").
  cbn. lia.
Defined.

(** X8: the ids hydrated from the remote store do not make a URL a
    duplicate.  The remote store is keyed by encoded ids, [is_duplicate]
    looks the URL itself up.  So when the local file brings nothing and
    the remote ids are made of the characters ids are made of, a URL with
    any other character (the colon and the slashes of any http URL) is not
    a duplicate after hydration, even if the id of that very URL is among
    the remote ids. *)
Theorem remote_ids_do_not_deduplicate (remote_docs : list string)
    (write : written) (url : string) (self : bot.InternshipFinderBot) :
  local_ids (bot.seen_urls_file self) = ∅ →
  forallb safe_string remote_docs = true →
  safe_string url = false →
  result (bot.is_duplicate url)
    (exec (bot._load_seen_urls (Streamed remote_docs) write) self)
  = Return false.
Proof.
  intros Hlocal Hsafe Hurl.
  destruct (load_seen_urls_file (Streamed remote_docs) write self)
    as (self' & Hload & Hseen & _).
  assert (exec (bot._load_seen_urls (Streamed remote_docs) write) self = self')
    as -> by (unfold exec; by rewrite Hload).
  unfold result, bot.is_duplicate, gets. cbn [snd]. f_equal.
  apply bool_decide_eq_false. rewrite Hseen, Hlocal. cbn [remote_ids].
  intros Hin. assert (url ∈ remote_docs) as Hin' by set_solver.
  rewrite forallb_forall in Hsafe.
  apply list_elem_of_In, Hsafe in Hin'. congruence.
Qed.

Lemma remote_ids_do_not_deduplicate_witness :
  result (bot.is_duplicate "https://example.com/jobs/1")
    (exec (bot._load_seen_urls
             (Streamed [bot._encode_doc_id some_digest "https://example.com/jobs/1"])
             Written) new_bot)
  = Return false.
Proof.
  apply (remote_ids_do_not_deduplicate
           [bot._encode_doc_id some_digest "https://example.com/jobs/1"]
           Written "https://example.com/jobs/1" new_bot);
    reflexivity.
Defined.

(** ** The seen-jobs store: lookups, snapshots, restarts *)

Section seen_jobs_store_more.

Import seen_jobs.
Implicit Types (st : state) (u v url : string) (remote old_docs : stream).
Implicit Types (remote_set : pyresult unit) (write : written).

(** What [mark_seen] leaves when the local write succeeds. *)
Lemma mark_seen_file remote_set u st :
  u ≠ "" →
  ∃ st',
    mark_seen remote_set Written (Some u) st = (st', Return tt)
    ∧ _seen_jobs_cache st' = {[u]} ∪ _seen_jobs_cache st
    ∧ _LOCAL_SEEN_JOBS_FILE st' = Stored (JList (elements (_seen_jobs_cache st'))).
Proof.
  intros Hu. unfold mark_seen, str_truthy.
  destruct (String.eqb_spec u "") as [|_]; [done|]. cbn [negb].
  unfold _save_to_local_file, call. run.
  destruct (_db st), remote_set; cbn; eauto.
Qed.

End seen_jobs_store_more.

(** X9: lookup after insert.  After [mark_seen] of a non-empty URL,
    whatever the two writes do, [has_seen] is true for that URL and answers
    for every other URL what it answered before; [has_seen] itself changes
    nothing. *)
Theorem has_seen_after_mark_seen
    (remote_set : pyresult unit) (write : written)
    (u v : string) (st : seen_jobs.state) :
  u ≠ "" →
  let st' := exec (seen_jobs.mark_seen remote_set write (Some u)) st in
  result (seen_jobs.has_seen u) st' = Return true
  ∧ (v ≠ u → result (seen_jobs.has_seen v) st' = result (seen_jobs.has_seen v) st)
  ∧ exec (seen_jobs.has_seen v) st' = st'.
Proof.
  intros Hu. cbn zeta.
  destruct (mark_seen_truthy remote_set write u st Hu) as (st' & Hrun & Hcache).
  assert (exec (seen_jobs.mark_seen remote_set write (Some u)) st = st')
    as -> by (unfold exec; by rewrite Hrun).
  unfold result, exec, seen_jobs.has_seen, gets. cbn [fst snd].
  rewrite Hcache. split; [|split; [|done]].
  - f_equal. apply bool_decide_eq_true. set_solver.
  - intros Hv. f_equal. apply bool_decide_ext. set_solver.
Qed.

Lemma has_seen_after_mark_seen_witness :
  result (seen_jobs.has_seen "https://example.com/jobs/1")
    (exec (seen_jobs.mark_seen (Raise OtherException)
             (Interrupted OtherException false)
             (Some "https://example.com/jobs/1")) new_module)
  = Return true.
Proof.
  apply (has_seen_after_mark_seen (Raise OtherException)
           (Interrupted OtherException false)
           "https://example.com/jobs/1" "" new_module).
  discriminate.
Defined.

(** X10: round trip through the local file of [seen_jobs].  After a
    [mark_seen] whose local write succeeded, a new process that has no
    remote client and starts from an empty cache with the same file finds
    the URL again on [load_seen_jobs]. *)
Theorem marked_url_survives_restart (remote_set : pyresult unit)
    (remote : stream) (u : string) (st : seen_jobs.state) :
  u ≠ "" →
  let marked := exec (seen_jobs.mark_seen remote_set Written (Some u)) st in
  let restarted :=
    {| seen_jobs._seen_jobs_cache := ∅; seen_jobs._db := None;
       seen_jobs._LOCAL_SEEN_JOBS_FILE := seen_jobs._LOCAL_SEEN_JOBS_FILE marked;
       seen_jobs.trace := [] |} in
  result (seen_jobs.has_seen u) (exec (seen_jobs.load_seen_jobs remote) restarted)
  = Return true
  ∧ seen_jobs._seen_jobs_cache (exec (seen_jobs.load_seen_jobs remote) restarted)
    = seen_jobs._seen_jobs_cache marked.
Proof.
  intros Hu. cbn zeta.
  destruct (mark_seen_file remote_set u st Hu) as (marked & Hrun & Hcache & Hfile).
  assert (exec (seen_jobs.mark_seen remote_set Written (Some u)) st = marked)
    as -> by (unfold exec; by rewrite Hrun).
  match goal with |- context [exec _ ?s] => set (restarted := s) end.
  destruct (load_seen_jobs_spec remote restarted) as (st' & Hload & Hc & _).
  assert (exec (seen_jobs.load_seen_jobs remote) restarted = st')
    as -> by (unfold exec; by rewrite Hload).
  subst restarted. cbn [seen_jobs._seen_jobs_cache seen_jobs._db
                        seen_jobs._LOCAL_SEEN_JOBS_FILE hydrated_ids] in Hc.
  rewrite Hfile in Hc. cbn [local_ids] in Hc.
  rewrite list_to_set_elements in Hc.
  assert (seen_jobs._seen_jobs_cache st' = seen_jobs._seen_jobs_cache marked)
    as Hsame by set_solver.
  split; [|done].
  unfold result, seen_jobs.has_seen, gets. cbn [snd]. f_equal.
  apply bool_decide_eq_true. rewrite Hsame, Hcache. set_solver.
Qed.

Lemma marked_url_survives_restart_witness :
  result (seen_jobs.has_seen "https://example.com/jobs/1")
    (exec (seen_jobs.load_seen_jobs (Broken []))
       {| seen_jobs._seen_jobs_cache := ∅; seen_jobs._db := None;
          seen_jobs._LOCAL_SEEN_JOBS_FILE :=
            seen_jobs._LOCAL_SEEN_JOBS_FILE
              (exec (seen_jobs.mark_seen (Return tt) Written
                       (Some "https://example.com/jobs/1")) new_module);
          seen_jobs.trace := [] |})
  = Return true.
Proof.
  apply (marked_url_survives_restart (Return tt) (Broken [])
           "https://example.com/jobs/1" new_module).
  discriminate.
Defined.

(** ** The batches of [cleanup_seen_jobs] *)

Section cleanup_batches.

Import seen_jobs.
Implicit Types (st : state) (docs batch : list string) (count : nat).

Variable commit : nat -> pyresult unit.
Hypothesis commit_ok : ∀ n, commit n = Return tt.

Lemma commits_app tr1 tr2 : commits (tr1 ++ tr2) = commits tr1 ++ commits tr2.
Proof. apply omap_app. Qed.

Lemma cleanup_loop_all_committed docs batch count st :
  length batch = (count mod 500)%nat →
  ∃ st' batch' count' batches,
    cleanup_loop commit docs batch count st = (st', Return (batch', count'))
    ∧ commits (trace st') = commits (trace st) ++ batches
    ∧ concat batches ++ batch' = batch ++ docs
    ∧ Forall (fun b => length b = 500%nat) batches
    ∧ length batch' = (count' mod 500)%nat
    ∧ _seen_jobs_cache st' = _seen_jobs_cache st ∖ list_to_set docs
    ∧ _db st' = _db st.
Proof.
  revert batch count st.
  induction docs as [|doc rest IH]; intros batch count st Hlen.
  - exists st, batch, count, []. cbn. rewrite !app_nil_r.
    repeat split; try done. set_solver.
  - cbn [cleanup_loop]. unfold and_then at 1. unfold gets at 1.
    unfold and_then at 1.
    assert (∃ st1,
               (if bool_decide (doc ∈ _seen_jobs_cache st)
                then modify (with_cache (fun cache => cache ∖ {[doc]}))
                else pure tt) st = (st1, Return tt)
               ∧ _seen_jobs_cache st1 = _seen_jobs_cache st ∖ {[doc]}
               ∧ _db st1 = _db st ∧ trace st1 = trace st)
      as (st1 & -> & Hc1 & Hdb1 & Htr1).
    { unfold modify, pure, with_cache.
      case_bool_decide; eexists; (split; [reflexivity|]); cbn;
        (split; [set_solver | done]). }
    destruct (Nat.eqb_spec (S count mod 500) 0) as [Hfull|Hpart].
    + unfold call. unfold and_then at 1. unfold and_then at 1.
      unfold modify at 1. unfold outcome at 1. rewrite commit_ok.
      destruct (IH [] (S count) (emit (RemoteCommit (batch ++ [doc])) st1))
        as (st' & batch' & count' & batches & -> & Htr & Hcat & Hall & Hlen' & Hc & Hdb).
      { by rewrite Hfull. }
      exists st', batch', count', ((batch ++ [doc]) :: batches).
      split; [done|]. cbn [trace emit _seen_jobs_cache _db] in *.
      rewrite commits_app in Htr. cbn in Htr.
      split; [by rewrite Htr, Htr1, <- app_assoc|].
      split; [cbn; by rewrite <- !app_assoc, Hcat|].
      split.
      { constructor; [|done]. rewrite length_app, Hlen. cbn [length].
        div500 count. div500 (S count). lia. }
      split; [done|]. split; [set_solver | congruence].
    + destruct (IH (batch ++ [doc]) (S count) st1)
        as (st' & batch' & count' & batches & -> & Htr & Hcat & Hall & Hlen' & Hc & Hdb).
      { rewrite length_app, Hlen. cbn [length].
        div500 count. div500 (S count). lia. }
      exists st', batch', count', batches.
      split; [done|]. rewrite Htr, Htr1, Hcat, <- app_assoc.
      repeat split; try done; [set_solver | congruence].
Qed.

End cleanup_batches.

Lemma cleanup_seen_jobs_all_committed (days : Z) (ids : list string)
    (st : seen_jobs.state) :
  seen_jobs._db st = Some Client →
  ∃ st' batches,
    seen_jobs.cleanup_seen_jobs days (Streamed ids) (fun _ => Return tt) st
    = (st', Return tt)
    ∧ commits (seen_jobs.trace st') = commits (seen_jobs.trace st) ++ batches
    ∧ concat batches = ids
    ∧ Forall (fun b => (1 <= length b <= 500)%nat) batches
    ∧ (∀ i b, batches !! i = Some b → (S i < length batches)%nat →
              length b = 500%nat)
    ∧ seen_jobs._seen_jobs_cache st'
      = seen_jobs._seen_jobs_cache st ∖ list_to_set ids.
Proof.
  intros Hdb. unfold seen_jobs.cleanup_seen_jobs.
  unfold and_then at 1. unfold gets at 1. rewrite Hdb.
  unfold try_, and_then at 1. unfold modify at 1. unfold and_then at 1.
  destruct (cleanup_loop_all_committed (fun _ => Return tt) (fun _ => eq_refl)
              ids [] 0 (seen_jobs.emit (RemoteQueryOld "seen_jobs" days) st) eq_refl)
    as (st1 & batch & count & batches & Hrun & Htr & Hcat & Hall & Hlen & Hc & _).
  cbn [yielded]. rewrite Hrun.
  unfold and_then, ending, pure.
  cbn [seen_jobs.trace seen_jobs.emit seen_jobs._seen_jobs_cache] in *.
  rewrite commits_app in Htr. cbn in Htr. rewrite app_nil_r in Htr.
  destruct (Nat.eqb_spec (count mod 500) 0) as [H0|Hrest]; cbn [negb].
  - destruct batch; [|cbn [length] in Hlen; lia]. rewrite app_nil_r in Hcat.
    exists st1, batches. split; [done|]. split; [done|]. split; [done|].
    split; [|split; [|done]].
    + eapply Forall_impl; [exact Hall|]. cbn beta. lia.
    + intros i b Hi _. by eapply Forall_lookup_1 in Hall.
  - unfold seen_jobs.call, and_then, modify, outcome.
    eexists _, (batches ++ [batch]). split; [reflexivity|].
    cbn [seen_jobs.trace seen_jobs.emit seen_jobs._seen_jobs_cache].
    rewrite commits_app, Htr. cbn [commits omap]. rewrite <- app_assoc.
    split; [done|].
    split; [by rewrite concat_app; cbn; rewrite app_nil_r|].
    split; [|split; [|done]].
    + apply Forall_app. split.
      * eapply Forall_impl; [exact Hall|]. cbn beta. lia.
      * constructor; [|done]. div500 count. lia.
    + intros i b Hi Hlt. rewrite length_app in Hlt. cbn [length] in Hlt.
      rewrite lookup_app_l in Hi by lia.
      by eapply Forall_lookup_1 in Hall.
Qed.

(** X11: the batches of the adapter-side expiry.  With a remote client, a
    query that enumerates the old documents to its end and commits that all
    succeed, [cleanup_seen_jobs] removes exactly the enumerated ids from
    the cache and commits their deletion in batches that, put end to end,
    are the enumerated ids in order: batches of 500, then one smaller,
    non-empty batch for what remains. *)
Theorem cleanup_commits_in_batches (days : Z) (ids : list string)
    (st : seen_jobs.state) :
  seen_jobs._db st = Some Client →
  let st' :=
    exec (seen_jobs.cleanup_seen_jobs days (Streamed ids) (fun _ => Return tt)) st in
  ∃ batches,
    commits (seen_jobs.trace st') = commits (seen_jobs.trace st) ++ batches
    ∧ concat batches = ids
    ∧ Forall (fun b => (1 <= length b <= 500)%nat) batches
    ∧ (∀ i b, batches !! i = Some b → (S i < length batches)%nat →
              length b = 500%nat)
    ∧ seen_jobs._seen_jobs_cache st'
      = seen_jobs._seen_jobs_cache st ∖ list_to_set ids.
Proof.
  intros Hdb. cbn zeta.
  destruct (cleanup_seen_jobs_all_committed days ids st Hdb)
    as (st' & batches & Hrun & H).
  assert (exec (seen_jobs.cleanup_seen_jobs days (Streamed ids)
                  (fun _ => Return tt)) st = st')
    as -> by (unfold exec; by rewrite Hrun).
  by exists batches.
Qed.

Lemma cleanup_commits_in_batches_witness :
  ∃ batches,
    commits
      (seen_jobs.trace
         (exec (seen_jobs.cleanup_seen_jobs 30 (Streamed ["a"; "b"])
                  (fun _ => Return tt))
            (seen_jobs.set_db (Some Client) new_module)))
    = commits (seen_jobs.trace (seen_jobs.set_db (Some Client) new_module))
      ++ batches
    ∧ concat batches = ["a"; "b"].
Proof.
  destruct (cleanup_commits_in_batches 30 ["a"; "b"]
              (seen_jobs.set_db (Some Client) new_module) eq_refl)
    as (batches & H1 & H2 & _).
  by exists batches.
Defined.

(** ** The adapter-side filter *)

(** X12: [filter_new_internships] and [mark_internships_seen] never filter
    and never mark.  While [self.seen_jobs] is unset or the cache is empty
    they return at once (the list as it is); otherwise [self.seen_jobs] is
    the cache, a set, and the first record makes the method lookup raise
    an [AttributeError].  In no case is a record dropped or the store
    changed. *)
Theorem adapter_filter_never_filters (self : base_fetcher.BaseFetcher)
    (internships : list models.Internship) (st : seen_jobs.state) :
  let attempted :=
    base_fetcher.seen_jobs_truthy self st
    && bool_decide (internships ≠ []) in
  base_fetcher.filter_new_internships self internships st
  = (st, if attempted then Raise AttributeError else Return internships)
  ∧ base_fetcher.mark_internships_seen self internships st
    = (st, if attempted then Raise AttributeError else Return tt).
Proof.
  cbn zeta.
  unfold base_fetcher.filter_new_internships,
    base_fetcher.mark_internships_seen, and_then, gets.
  destruct (base_fetcher.seen_jobs_truthy self st); [|done].
  by destruct internships.
Qed.

(** ** The selection of the fresh records *)

Section selection.

Import bot.
Variable fromisoformat : string -> option datetime.
Implicit Types (r : models.Internship) (all : list models.Internship).
Implicit Types (self : InternshipFinderBot) (clock : Z).

Lemma plain_lookups r :
  plain r = true →
  models.to_dict r !! "posted_date" = Some (VDatetime (models.posted_date r))
  ∧ models.to_dict r !! "url" = Some (VStr (models.url r)).
Proof.
  intros [Hd Hu]%bool_decide_eq_true. unfold models.to_dict.
  by rewrite !lookup_union_r.
Qed.

Lemma plain_datable r : plain r = true → datable (models.to_dict r) = true.
Proof.
  intros [H _]%plain_lookups. unfold datable. by rewrite H.
Qed.

Lemma plain_recent clock r :
  plain r = true →
  recent fromisoformat clock (models.to_dict r) = true
  ↔ posted_within_24h clock r.
Proof.
  intros [H _]%plain_lookups. unfold recent, posted_at, posted_within_24h.
  rewrite H. apply bool_decide_eq_true.
Qed.

Lemma it_filtered_elem all r :
  r ∈ it_filtered_of all ↔ r ∈ all ∧ passes_filters r.
Proof.
  unfold it_filtered_of, passes_filters. rewrite !list_elem_of_filter. tauto.
Qed.

Lemma recent_urls_elem clock all r :
  forallb plain all = true →
  VStr (models.url r)
    ∈ omap url_of
        (filter (fun d => recent fromisoformat clock d = true)
           (models.to_dict <$> it_filtered_of all))
  ↔ models.url r ≠ ""
    ∧ ∃ r', r' ∈ all ∧ passes_filters r' ∧ models.url r' = models.url r
            ∧ posted_within_24h clock r'.
Proof.
  intros Hplain. rewrite forallb_forall in Hplain.
  rewrite list_elem_of_omap. split.
  - intros (d & [Hrecent Hd]%list_elem_of_filter & Hurl).
    apply list_elem_of_fmap in Hd as (r' & -> & Hr').
    apply it_filtered_elem in Hr' as [Hin Hpass].
    assert (plain r' = true) as Hp by (apply Hplain; by apply list_elem_of_In).
    destruct (plain_lookups r' Hp) as [_ Hu].
    unfold url_of in Hurl. rewrite Hu in Hurl. cbn [truthy] in Hurl.
    destruct (String.eqb_spec (models.url r') "") as [|Hne]; [done|].
    cbn [negb] in Hurl. injection Hurl as Heq.
    split; [congruence|]. exists r'.
    split; [done|]. split; [done|]. split; [done|]. by apply plain_recent.
  - intros (Hne & r' & Hin & Hpass & Heq & Hrecent).
    assert (plain r' = true) as Hp by (apply Hplain; by apply list_elem_of_In).
    destruct (plain_lookups r' Hp) as [_ Hu].
    exists (models.to_dict r'). split.
    + apply list_elem_of_filter. split; [by apply plain_recent|].
      apply list_elem_of_fmap_2. by apply it_filtered_elem.
    + unfold url_of. rewrite Hu. cbn [truthy]. rewrite Heq.
      by destruct (String.eqb_spec (models.url r) "").
Qed.

Lemma it_filtered_datable all :
  forallb plain all = true →
  forallb datable (models.to_dict <$> it_filtered_of all) = true.
Proof.
  intros Hplain. rewrite forallb_forall in *. intros d Hd.
  apply list_elem_of_In, list_elem_of_fmap in Hd as (r & -> & Hr).
  apply plain_datable, Hplain, list_elem_of_In.
  by apply it_filtered_elem in Hr as [? _].
Qed.

Lemma select_fresh_runs clock all self :
  forallb plain all = true →
  select_fresh fromisoformat clock all self
  = (self, Return (selection fromisoformat clock all (seen_urls self))).
Proof.
  intros Hplain. unfold select_fresh, selection.
  change (match config.LOCATION_FILTERS with
          | [] => filter (fun i => it_related i = true) all
          | _ :: _ =>
              filter (fun i => in_location i = true)
                (filter (fun i => it_related i = true) all)
          end) with (it_filtered_of all).
  unfold and_then, outcome.
  rewrite filter_last_24_hours_spec.
  by rewrite it_filtered_datable.
Qed.

Lemma selection_sublist clock all seen :
  selection fromisoformat clock all seen `sublist_of` all.
Proof.
  unfold selection, it_filtered_of.
  repeat (etrans; [apply sublist_filter; apply _|]). done.
Qed.

Lemma selection_elem clock all seen r :
  forallb plain all = true →
  r ∈ selection fromisoformat clock all seen
  ↔ r ∈ all ∧ passes_filters r ∧ models.url r ≠ ""
    ∧ (models.url r ∉ seen)
    ∧ ∃ r', r' ∈ all ∧ passes_filters r'
            ∧ models.url r' = models.url r
            ∧ posted_within_24h clock r'.
Proof.
  intros Hplain. unfold selection.
  rewrite !list_elem_of_filter, it_filtered_elem.
  rewrite (recent_urls_elem clock all r Hplain). tauto.
Qed.

(** X13: what [run] selects for notification. When no fetched record's
    metadata shadows its date or URL, the selection never raises, leaves
    the bot unchanged, keeps the order of the fetched records, and holds
    exactly the records that pass the keyword and location filters, have a
    non-empty URL not yet seen, and whose URL is also the URL of some
    fetched record passing the filters that was posted at most 24 hours
    ago: the date test is made on the URL, not on the record itself. *)
Theorem select_fresh_characterised clock all self :
  forallb plain all = true →
  ∃ fresh,
    select_fresh fromisoformat clock all self = (self, Return fresh)
    ∧ fresh `sublist_of` all
    ∧ ∀ r,
        r ∈ fresh
        ↔ r ∈ all ∧ passes_filters r ∧ models.url r ≠ ""
          ∧ (models.url r ∉ seen_urls self)
          ∧ ∃ r', r' ∈ all ∧ passes_filters r'
                  ∧ models.url r' = models.url r
                  ∧ posted_within_24h clock r'.
Proof.
  intros Hplain. eexists. split; [by apply select_fresh_runs|].
  split; [apply selection_sublist|].
  intros r. by apply selection_elem.
Qed.

End selection.

(** ** One cycle of the orchestrator *)

Section one_cycle.

Import bot.
Variable fromisoformat : string -> option datetime.
Variable sha256_hexdigest : string -> string.
Implicit Types (r : models.Internship) (all fresh : list models.Internship).
Implicit Types (self : InternshipFinderBot) (clock : Z).
Implicit Types (remote_set : models.Internship -> pyresult unit).
Implicit Types (write : models.Internship -> written).
Implicit Types (post : nat -> pyresult Z) (summary : pyresult Z).

Lemma posts_emit e self :
  posts (trace (emit e self))
  = posts (trace self)
    ++ match e with TelegramPost chunk _ => [chunk] | _ => [] end.
Proof.
  unfold posts, emit. cbn [trace]. rewrite omap_app. by destruct e.
Qed.

Lemma save_internship_quiet (rs : pyresult unit) (w : written) r self :
  ∃ self',
    save_internship sha256_hexdigest rs w r self = (self', Return tt)
    ∧ seen_urls self' = {[models.url r]} ∪ seen_urls self
    ∧ fetchers self' = fetchers self
    ∧ posts (trace self') = posts (trace self)
    ∧ (w = Written →
       seen_urls_file self' = Stored (JList (elements (seen_urls self')))).
Proof.
  unfold save_internship, call.
  unfold try_, and_then, gets, modify, outcome, pure, Exception.
  destruct rs, w as [|?|? []]; eexists; (split; [reflexivity|]);
    (split; [done|]); (split; [done|]); (split; [|done]); unfold posts; cbn;
    rewrite ?omap_app; cbn; by rewrite ?app_nil_r.
Qed.

Lemma save_all_spec remote_set write fresh self :
  ∃ self',
    for_each fresh
      (fun inst =>
         save_internship sha256_hexdigest (remote_set inst) (write inst) inst)
      self
    = (self', Return tt)
    ∧ seen_urls self' = seen_urls self ∪ list_to_set (models.url <$> fresh)
    ∧ fetchers self' = fetchers self
    ∧ posts (trace self') = posts (trace self)
    ∧ ((∀ i, write i = Written) →
       fresh ≠ []
       ∨ seen_urls_file self = Stored (JList (elements (seen_urls self))) →
       seen_urls_file self' = Stored (JList (elements (seen_urls self')))).
Proof.
  revert self. induction fresh as [|r fresh IH]; intros self.
  - exists self. cbn. split; [done|]. split; [set_solver|].
    split; [done|]. split; [done|]. by intros _ [?|?].
  - destruct (save_internship_quiet (remote_set r) (write r) r self)
      as (self1 & Hrun1 & Hseen1 & Hf1 & Hp1 & Hfile1).
    destruct (IH self1) as (self' & Hrun & Hseen & Hf & Hp & Hfile).
    exists self'. cbn [for_each]. unfold and_then. rewrite Hrun1, Hrun.
    split; [done|]. clear IH.
    split; [rewrite Hseen, Hseen1; set_solver|].
    split; [by rewrite Hf, Hf1|]. split; [by rewrite Hp, Hp1|].
    intros Hwrite _. apply Hfile; [done|]. right. by apply Hfile1.
Qed.

Lemma post_chunks_posts post (is_daily_update : bool)
    (batches : list (list models.Internship)) (first : nat) self :
  ∃ self',
    for_each (zip (seq first (length batches)) batches)
      (fun '(k, chunk) =>
         try_
           (status <- call (TelegramPost chunk is_daily_update) (post k) ;;
            pure tt)%act
           Exception
           (fun _ => pure tt)) self
    = (self', Return tt)
    ∧ posts (trace self') = posts (trace self) ++ batches
    ∧ seen_urls self' = seen_urls self
    ∧ fetchers self' = fetchers self
    ∧ seen_urls_file self' = seen_urls_file self.
Proof.
  revert first self. induction batches as [|chunk batches IH]; intros first self.
  - exists self. cbn. by rewrite app_nil_r.
  - cbn [length seq zip zip_with for_each].
    unfold and_then at 1. unfold try_ at 1. unfold and_then at 1.
    unfold call at 1. unfold and_then at 1. unfold modify at 1.
    unfold outcome at 1.
    destruct (IH (S first) (emit (TelegramPost chunk is_daily_update) self))
      as (self' & Hrun & Hposts & Hseen & Hf & Hfile).
    exists self'. destruct (post first); cbn [pure Exception]; rewrite Hrun;
      (split; [done|]); rewrite Hposts, Hseen, Hf, Hfile, posts_emit;
      cbn; by rewrite <- app_assoc.
Qed.

Lemma send_telegram_notification_posts credentials post fresh b self :
  ∃ self',
    send_telegram_notification credentials post fresh b self
    = (self', Return tt)
    ∧ posts (trace self')
      = posts (trace self)
        ++ (if credentials
            then chunks 5 ((length fresh + 4) / 5) fresh else [])
    ∧ seen_urls self' = seen_urls self
    ∧ fetchers self' = fetchers self
    ∧ seen_urls_file self' = seen_urls_file self.
Proof.
  unfold send_telegram_notification.
  destruct fresh as [|i rest] eqn:Hi.
  - exists self. cbn. destruct credentials; by rewrite app_nil_r.
  - rewrite <- Hi. clear Hi. destruct credentials; cbn [negb].
    + unfold and_then, outcome. rewrite chunk_list_by_5.
      apply post_chunks_posts.
    + exists self. by rewrite app_nil_r.
Qed.

Lemma send_daily_summary_notification_spec credentials summary self :
  send_daily_summary_notification credentials summary self
  = (if credentials then emit TelegramSummary self else self, Return tt).
Proof.
  unfold send_daily_summary_notification, call.
  unfold try_, and_then, modify, outcome, pure, Exception.
  by destruct credentials, summary.
Qed.

(** What one cycle does, in terms of the records it selects. *)
Lemma run_body_spec clock fetch remote_set write credentials post summary self :
  forallb plain (fetched fetch self) = true →
  let fresh := selection fromisoformat clock (fetched fetch self) (seen_urls self) in
  ∃ self',
    run_body fromisoformat sha256_hexdigest clock (finished fetch)
      remote_set write credentials post summary self
    = (self', Return tt)
    ∧ seen_urls self' = seen_urls self ∪ list_to_set (models.url <$> fresh)
    ∧ fetchers self' = fetchers self
    ∧ posts (trace self')
      = posts (trace self)
        ++ (if credentials
            then chunks 5 ((length fresh + 4) / 5) fresh else [])
    ∧ ((∀ i, write i = Written) → fresh ≠ [] →
       seen_urls_file self' = Stored (JList (elements (seen_urls self')))).
Proof.
  intros Hplain fresh. unfold run_body, finished. unfold and_then at 1.
  rewrite fetch_all_internships_finished.
  fold (fetched fetch self).
  assert (∃ self',
    (fresh0 <- select_fresh fromisoformat clock (fetched fetch self) ;;
     match fresh0 with
     | [] => send_daily_summary_notification credentials summary
     | _ :: _ =>
         for_each fresh0
           (fun inst =>
              save_internship sha256_hexdigest (remote_set inst)
                (write inst) inst) ;;
         send_telegram_notification credentials post fresh0 true
     end)%act self = (self', Return tt)
    ∧ seen_urls self' = seen_urls self ∪ list_to_set (models.url <$> fresh)
    ∧ fetchers self' = fetchers self
    ∧ posts (trace self')
      = posts (trace self)
        ++ (if credentials
            then chunks 5 ((length fresh + 4) / 5) fresh else [])
    ∧ ((∀ i, write i = Written) → fresh ≠ [] →
       seen_urls_file self'
       = Stored (JList (elements (seen_urls self'))))) as Hmain.
  { unfold and_then at 1. rewrite select_fresh_runs by done. fold fresh.
    destruct fresh as [|r rest] eqn:Hfresh.
    - rewrite send_daily_summary_notification_spec. eexists. split; [done|].
      split; [destruct credentials; cbn; set_solver|].
      split; [by destruct credentials|].
      split; [|done].
      destruct credentials; rewrite ?posts_emit; cbn; by rewrite ?app_nil_r.
    - assert (fresh ≠ []) as Hne by (by rewrite Hfresh).
      rewrite <- Hfresh. clear Hfresh.
      destruct (save_all_spec remote_set write fresh self)
        as (self1 & Hrun1 & Hseen1 & Hf1 & Hp1 & Hfile1).
      destruct (send_telegram_notification_posts credentials post fresh true self1)
        as (self' & Hrun & Hp & Hseen & Hf & Hfile).
      exists self'. unfold and_then. rewrite Hrun1, Hrun.
      split; [done|]. split; [by rewrite Hseen, Hseen1|].
      split; [by rewrite Hf, Hf1|]. split; [by rewrite Hp, Hp1|].
      intros Hwrite _. rewrite Hfile, Hseen. apply Hfile1; [done|]. by left. }
  destruct (fetched fetch self) as [|r0 rest0] eqn:Hfetched; [|done].
  rewrite send_daily_summary_notification_spec. eexists. split; [done|].
  subst fresh.
  split; [destruct credentials; cbn; set_solver|].
  split; [by destruct credentials|].
  split; [|done].
  destruct credentials; rewrite ?posts_emit; cbn; by rewrite ?app_nil_r.
Qed.

End one_cycle.

Section cycles.

Import bot.
Variable fromisoformat : string -> option datetime.
Variable sha256_hexdigest : string -> string.
Implicit Types (r : models.Internship) (all fresh : list models.Internship).
Implicit Types (self : InternshipFinderBot) (clock : Z).
Implicit Types (remote_set : models.Internship -> pyresult unit).
Implicit Types (write : models.Internship -> written).
Implicit Types (post : nat -> pyresult Z) (summary : pyresult Z).


(** X15: a record saved to the local file is not posted again. After a
    cycle whose writes to the local file succeed, the next cycle, which
    begins by hydrating [seen_urls] again, posts no record with the URL of
    a record that was fresh in the first cycle, whatever the remote store
    answers, whatever the fetchers then return (no fetch being cancelled
    in either cycle), and whether or not the first cycle could deliver
    its posts. *)
Theorem saved_record_is_not_posted_again
    clock1 clock2 fetch1 fetch2 remote_set1 credentials1 post1 summary1
    (remote : stream) (write : written)
    remote_set2 write2 credentials2 post2 summary2 self :
  forallb plain (fetched fetch1 self) = true →
  forallb plain (fetched fetch2 self) = true →
  let self1 :=
    exec (run_body fromisoformat sha256_hexdigest clock1 (finished fetch1)
            remote_set1 (fun _ => Written) credentials1 post1 summary1)
      self in
  let self2 := exec (_load_seen_urls remote write) self1 in
  let self3 :=
    exec (run_body fromisoformat sha256_hexdigest clock2 (finished fetch2)
            remote_set2 write2 credentials2 post2 summary2) self2 in
  ∃ fresh1 posted2,
    result (select_fresh fromisoformat clock1 (fetched fetch1 self)) self
    = Return fresh1
    ∧ posts (trace self3) = posts (trace self2) ++ posted2
    ∧ ∀ r1 r2,
        r1 ∈ fresh1 → r2 ∈ concat posted2 → models.url r2 ≠ models.url r1.
Proof.
  intros Hplain1 Hplain2 self1 self2 self3.
  destruct (run_body_spec fromisoformat sha256_hexdigest clock1 fetch1
              remote_set1 (fun _ => Written) credentials1 post1 summary1
              self Hplain1)
    as (s1 & Hrun1 & Hseen1 & Hf1 & _ & Hfile1).
  assert (self1 = s1) as -> by (unfold self1, exec; by rewrite Hrun1).
  clear Hrun1.
  destruct (load_seen_urls_spec remote write s1)
    as (s2 & Hrun2 & Hseen2 & Hf2).
  assert (self2 = s2) as -> by (unfold self2, exec; by rewrite Hrun2).
  clear Hrun2.
  assert (fetched fetch2 s2 = fetched fetch2 self) as Hsame
    by (unfold fetched; by rewrite Hf2, Hf1).
  assert (forallb plain (fetched fetch2 s2) = true) as Hplain2'
    by (by rewrite Hsame).
  destruct (run_body_spec fromisoformat sha256_hexdigest clock2 fetch2
              remote_set2 write2 credentials2 post2 summary2 s2 Hplain2')
    as (s3 & Hrun3 & _ & _ & Hposts3 & _).
  assert (self3 = s3) as -> by (unfold self3, exec; by rewrite Hrun3).
  clear Hrun3.
  eexists _, _. split.
  { unfold result. by rewrite select_fresh_runs. }
  split; [exact Hposts3|].
  intros r1 r2 Hr1 Hr2 Heq.
  assert (selection fromisoformat clock1 (fetched fetch1 self) (seen_urls self)
          ≠ []) as Hne by (intros Hnil; rewrite Hnil in Hr1; by apply elem_of_nil in Hr1).
  assert (models.url r1 ∈ seen_urls s2) as Hseen.
  { rewrite Hseen2, Hfile1 by done. cbn [local_ids].
    rewrite list_to_set_elements, Hseen1.
    apply elem_of_union_l, elem_of_union_r.
    apply elem_of_list_to_set, list_elem_of_fmap. by exists r1. }
  destruct credentials2; [|by apply elem_of_nil in Hr2].
  rewrite concat_chunks in Hr2.
  2:{ match goal with |- (length ?l <= _)%nat => div5 (length l + 4)%nat end.
      lia. }
  apply selection_elem in Hr2 as (_ & _ & _ & Hunseen & _); [|done].
  apply Hunseen. by rewrite Heq.
Qed.

(** X16: a cycle with nothing new only sends the summary. When no fetch
    is cancelled and every fetched record has a URL already seen, the body
    of [run] leaves the
    seen URLs and the local file as they are, writes nothing to the remote
    store, posts no record, and sends the daily summary once when the
    credentials are set. *)
Theorem nothing_new_only_summary
    clock fetch remote_set write credentials post summary self :
  forallb plain (fetched fetch self) = true →
  (∀ r, r ∈ fetched fetch self → models.url r ∈ seen_urls self) →
  run_body fromisoformat sha256_hexdigest clock (finished fetch)
    remote_set write credentials post summary self
  = (if credentials then emit TelegramSummary self else self, Return tt).
Proof.
  intros Hplain Hseen. unfold run_body, finished. unfold and_then at 1.
  rewrite fetch_all_internships_finished. fold (fetched fetch self).
  destruct (fetched fetch self) as [|r0 rest] eqn:Hfetched;
    [apply send_daily_summary_notification_spec|].
  rewrite <- Hfetched in *. clear Hfetched.
  unfold and_then. rewrite select_fresh_runs by done.
  assert (selection fromisoformat clock (fetched fetch self) (seen_urls self)
          = []) as ->.
  { apply elem_of_nil_inv. intros r Hr.
    apply selection_elem in Hr as (Hin & _ & _ & Hunseen & _); [|done].
    by apply Hunseen, Hseen. }
  apply send_daily_summary_notification_spec.
Qed.


End cycles.


Lemma select_fresh_characterised_witness :
  forallb plain [posted_at_noon] = true
  ∧ ∃ fresh,
      bot.select_fresh no_iso_string some_day [posted_at_noon] new_bot
      = (new_bot, Return fresh)
      ∧ fresh `sublist_of` [posted_at_noon]
      ∧ ∀ r,
          r ∈ fresh
          ↔ r ∈ [posted_at_noon] ∧ passes_filters r ∧ models.url r ≠ ""
            ∧ (models.url r ∉ bot.seen_urls new_bot)
            ∧ ∃ r', r' ∈ [posted_at_noon] ∧ passes_filters r'
                    ∧ models.url r' = models.url r
                    ∧ posted_within_24h some_day r'.
Proof.
  split; [reflexivity|].
  apply select_fresh_characterised. reflexivity.
Defined.


Lemma saved_record_is_not_posted_again_witness :
  forallb plain (fetched fetch_one bot_with_one_fetcher) = true
  ∧ ∃ fresh1 posted2,
      result (bot.select_fresh no_iso_string some_day
                (fetched fetch_one bot_with_one_fetcher)) bot_with_one_fetcher
      = Return fresh1
      ∧ posts
          (bot.trace
             (exec (bot.run_body no_iso_string some_digest (some_day + hour)
                      (finished fetch_one)
                      (fun _ => Return tt) (fun _ => Written)
                      true (fun _ => Return 200) (Return 200))
                (exec (bot._load_seen_urls (Broken []) Written)
                   (exec (bot.run_body no_iso_string some_digest some_day
                            (finished fetch_one)
                            (fun _ => Raise OtherException)
                            (fun _ => Written)
                            false (fun _ => Return 200) (Return 200))
                      bot_with_one_fetcher))))
        = posts
            (bot.trace
               (exec (bot._load_seen_urls (Broken []) Written)
                  (exec (bot.run_body no_iso_string some_digest some_day
                           (finished fetch_one)
                           (fun _ => Raise OtherException)
                           (fun _ => Written)
                           false (fun _ => Return 200) (Return 200))
                     bot_with_one_fetcher)))
          ++ posted2
      ∧ ∀ r1 r2,
          r1 ∈ fresh1 → r2 ∈ concat posted2 → models.url r2 ≠ models.url r1.
Proof.
  split; [vm_compute; reflexivity|].
  apply (saved_record_is_not_posted_again no_iso_string some_digest
           some_day (some_day + hour) fetch_one fetch_one);
    vm_compute; reflexivity.
Defined.

Lemma nothing_new_only_summary_witness :
  let self := bot.with_seen_urls (fun _ => {["https://example.com/jobs/3"]})
                bot_with_one_fetcher in
  bot.run_body no_iso_string some_digest some_day (finished fetch_one)
    (fun _ => Return tt) (fun _ => Written) true (fun _ => Return 200)
    (Return 200) self
  = (bot.emit TelegramSummary self, Return tt).
Proof.
  intros self.
  apply (nothing_new_only_summary no_iso_string some_digest some_day fetch_one
           (fun _ => Return tt) (fun _ => Written) true (fun _ => Return 200)
           (Return 200) self).
  - vm_compute. reflexivity.
  - intros r Hr. change (fetched fetch_one self) with [posted_at_noon] in Hr.
    apply list_elem_of_singleton in Hr as ->. vm_compute. reflexivity.
Defined.

(** ** Text helpers *)

Section text.

Implicit Types (s text : string) (c : ascii) (P : ascii -> Prop).

Lemma chars_append s1 s2 : chars (s1 +:+ s2) = chars s1 ++ chars s2.
Proof.
  induction s1 as [|c s1 IH]; [done|].
  change (String c s1 +:+ s2) with (String c (s1 +:+ s2)).
  cbn. f_equal. exact IH.
Qed.

Lemma lstrip_forall P s : Forall P (chars s) → Forall P (chars (lstrip s)).
Proof.
  induction s as [|c s IH]; [done|]. cbn. intros H.
  destruct (isspace c); [|done]. apply IH. by inversion H.
Qed.

Lemma rstrip_forall P s : Forall P (chars s) → Forall P (chars (rstrip s)).
Proof.
  induction s as [|c s IH]; [done|]. cbn [rstrip]. intros H.
  inversion H as [|? ? Hc Hs]; subst. specialize (IH Hs).
  destruct (rstrip s) as [|d r].
  - destruct (isspace c); [done|]. by constructor.
  - by constructor.
Qed.

Lemma strip_forall P s : Forall P (chars s) → Forall P (chars (strip s)).
Proof. intros H. by apply rstrip_forall, lstrip_forall. Qed.

Lemma lstrip_head s :
  lstrip s = "" ∨ ∃ c s', lstrip s = String c s' ∧ isspace c = false.
Proof.
  induction s as [|c s IH]; [by left|]. cbn.
  destruct (isspace c) eqn:Hc; [done|]. right. eauto.
Qed.

Lemma rstrip_idempotent s : rstrip (rstrip s) = rstrip s.
Proof.
  induction s as [|c s IH]; [done|]. cbn [rstrip].
  destruct (rstrip s) as [|d r] eqn:Hr.
  - destruct (isspace c) eqn:Hc; [done|]. cbn. by rewrite Hc.
  - change (rstrip (String c (String d r)))
      with (match rstrip (String d r) with
            | EmptyString =>
                if isspace c then EmptyString else String c EmptyString
            | String a r' => String c (String a r')
            end).
    by rewrite IH.
Qed.

(** Nothing is left to strip after [strip]. *)
Lemma strip_idempotent s : strip (strip s) = strip s.
Proof.
  unfold strip.
  assert (lstrip (rstrip (lstrip s)) = rstrip (lstrip s)) as ->.
  { destruct (lstrip_head s) as [->|(c & s' & -> & Hc)]; [done|].
    cbn [rstrip]. destruct (rstrip s'); rewrite ?Hc; cbn [lstrip];
      by rewrite Hc. }
  apply rstrip_idempotent.
Qed.

Lemma str_filter_kept (keep : ascii -> bool) s :
  Forall (fun c => keep c = true) (chars (str_filter keep s)).
Proof.
  induction s as [|c s IH]; [constructor|]. cbn.
  destruct (keep c) eqn:Hc; [|done]. by constructor.
Qed.

Lemma str_filter_forall P (keep : ascii -> bool) s :
  Forall P (chars s) → Forall P (chars (str_filter keep s)).
Proof.
  induction s as [|c s IH]; [done|]. cbn. intros H.
  inversion H; subst. destruct (keep c); [constructor|]; auto.
Qed.

Lemma join_forall P sep (parts : list string) :
  Forall P (chars sep) →
  Forall (fun w => Forall P (chars w)) parts →
  Forall P (chars (join sep parts)).
Proof.
  intros Hsep. induction 1 as [|w parts Hw Hparts IH]; [constructor|].
  cbn [join]. destruct parts as [|w' parts]; [done|].
  rewrite !chars_append. by rewrite !Forall_app.
Qed.

Lemma split_ws_forall s (word : list ascii) :
  Forall (fun c => isspace c = false) word →
  Forall (fun w => Forall (fun c => isspace c = false) (chars w))
    (split_ws s word).
Proof.
  assert (∀ word,
    Forall (fun c => isspace c = false) word →
    Forall (fun w => Forall (fun c => isspace c = false) (chars w))
      match word with
      | [] => []
      | _ :: _ => [String.string_of_list_ascii (rev word)]
      end) as Hflush.
  { intros [|c w] H; [constructor|]. constructor; [|constructor].
    unfold chars. rewrite String.list_ascii_of_string_of_list_ascii.
    by apply List.Forall_rev. }
  revert word. induction s as [|c s IH]; intros word Hword; cbn [split_ws].
  - by apply Hflush.
  - destruct (isspace c) eqn:Hc.
    + apply Forall_app. split; [by apply Hflush|]. apply IH. constructor.
    + apply IH. by constructor.
Qed.

End text.

Lemma clean_text_stripped (text : string) :
  strip (helpers.clean_text text) = helpers.clean_text text.
Proof.
  unfold helpers.clean_text.
  destruct (negb (str_truthy text)); [done|]. apply strip_idempotent.
Qed.

Lemma clean_text_cleaned (text : string) :
  Forall cleaned_char (chars (helpers.clean_text text)).
Proof.
  unfold helpers.clean_text.
  destruct (negb (str_truthy text)); [constructor|].
  apply strip_forall.
  set (keep := fun char : ascii =>
                 (32 <=? N_of_ascii char)%N
                 || bool_decide (char ∈ ["010"; "013"; "009"]%char)).
  set (joined := join " " (split_ws text [])).
  assert (Forall (fun c => c = " "%char ∨ isspace c = false) (chars joined))
    as Hjoined.
  { apply join_forall; [repeat constructor|].
    eapply Forall_impl; [apply split_ws_forall; constructor|].
    intros w Hw. eapply Forall_impl; [exact Hw|]. cbn. auto. }
  pose proof (str_filter_forall _ keep _ Hjoined) as H1.
  pose proof (str_filter_kept keep joined) as H2.
  assert (Forall (fun c => (c = " "%char ∨ isspace c = false)
                           ∧ keep c = true)
            (chars (str_filter keep joined))) as H
    by (by apply Forall_and).
  eapply Forall_impl; [exact H|]. cbn. clear.
  intros c [Hc Hkeep]. unfold keep in Hkeep.
  apply orb_true_iff in Hkeep as [Hge|Hin].
  - split; [by apply N.leb_le|]. intros Hsp. destruct Hc; congruence.
  - apply bool_decide_eq_true in Hin. exfalso.
    repeat (apply elem_of_cons in Hin as [->|Hin]);
      [destruct Hc as [|Hc]; discriminate..|].
    by apply elem_of_nil in Hin.
Qed.

Section untouched_text.

Implicit Types (s text : string) (c : ascii) (word : list ascii).

Lemma split_ws_without_space s word :
  Forall (fun c => isspace c = false) (chars s) →
  split_ws s word
  = match rev word ++ chars s with
    | [] => []
    | l => [String.string_of_list_ascii l]
    end.
Proof.
  revert word. induction s as [|c s IH]; intros word Hs.
  - cbn [split_ws chars String.list_ascii_of_string]. rewrite app_nil_r.
    destruct word as [|c word]; [done|].
    cbn [rev]. by destruct (rev word).
  - inversion Hs as [|? ? Hc Hs']; subst. cbn [split_ws]. rewrite Hc.
    rewrite (IH (c :: word) Hs'). cbn [rev chars String.list_ascii_of_string].
    by rewrite <- app_assoc.
Qed.

Lemma str_filter_all (keep : ascii -> bool) s :
  Forall (fun c => keep c = true) (chars s) → str_filter keep s = s.
Proof.
  induction s as [|c s IH]; [done|]. intros H.
  inversion H as [|? ? Hc Hs]; subst. cbn. rewrite Hc. f_equal. by apply IH.
Qed.

Lemma rstrip_without_space s :
  Forall (fun c => isspace c = false) (chars s) → rstrip s = s.
Proof.
  induction s as [|c s IH]; [done|]. intros H.
  inversion H as [|? ? Hc Hs]; subst. cbn [rstrip]. rewrite (IH Hs).
  destruct s; [by rewrite Hc | done].
Qed.

Lemma strip_without_space s :
  Forall (fun c => isspace c = false) (chars s) → strip s = s.
Proof.
  intros H. unfold strip.
  assert (lstrip s = s) as ->; [|by apply rstrip_without_space].
  destruct s as [|c s]; [done|]. inversion H; subst. cbn. by rewrite H2.
Qed.

Lemma clean_text_untouched text :
  Forall untouched_char (chars text) → helpers.clean_text text = text.
Proof.
  intros H. unfold helpers.clean_text.
  destruct text as [|c text]; [done|].
  cbn [str_truthy String.eqb negb].
  assert (Forall (fun c => isspace c = false) (chars (String c text)))
    as Hspace
    by (eapply Forall_impl; [exact H|]; by intros ? [_ ?]).
  rewrite (split_ws_without_space _ [] Hspace).
  cbn [rev app chars String.list_ascii_of_string].
  change (String.string_of_list_ascii (c :: String.list_ascii_of_string text))
    with (String c (String.string_of_list_ascii
                      (String.list_ascii_of_string text))).
  rewrite String.string_of_list_ascii_of_string. cbn [join].
  rewrite str_filter_all.
  - by apply strip_without_space.
  - eapply Forall_impl; [exact H|]. intros a [Ha _]. cbn beta.
    apply orb_true_iff. left. by apply N.leb_le.
Qed.

End untouched_text.

(** X17: what [clean_text] guarantees.  The result holds no character
    below code point 32 and no whitespace character but the space, and it
    has no whitespace at either end: stripping it again changes nothing.
    It does not remove every control character: a text made of characters
    from code point 32 on that are no whitespace (DEL and the controls
    from 128 to 159 other than NEL among them) is returned as it is. *)
Theorem clean_text_result (text : string) :
  Forall cleaned_char (chars (helpers.clean_text text))
  ∧ strip (helpers.clean_text text) = helpers.clean_text text
  ∧ (Forall untouched_char (chars text) → helpers.clean_text text = text).
Proof.
  split; [apply clean_text_cleaned|].
  split; [apply clean_text_stripped|apply clean_text_untouched].
Qed.

Example clean_text_keeps_del :
  helpers.clean_text (String "127"%char "") = String "127"%char "".
Proof. reflexivity. Qed.

(** ** The keyword filter *)

Lemma lower_empty (s : string) : lower s = "" ↔ s = "".
Proof. by destruct s. Qed.

Lemma str_truthy_lower (s : string) : str_truthy (lower s) = str_truthy s.
Proof. by destruct s. Qed.

Lemma existsb_lower (text_lower : string) (keywords : list string) :
  existsb (fun keyword => contains (lower keyword) text_lower) keywords
  = existsb (fun keyword => contains keyword text_lower) (lower <$> keywords).
Proof.
  induction keywords as [|k keywords IH]; [done|]. cbn. by rewrite IH.
Qed.

Lemma is_it_related_with_r (text : string) :
  contains "r" (lower text) = true →
  helpers.is_it_related text config.IT_KEYWORDS = true.
Proof.
  intros Hr. unfold helpers.is_it_related.
  destruct text as [|c text]; [done|]. cbn [str_truthy String.eqb negb].
  apply existsb_exists. exists "r". split; [|exact Hr].
  apply list_elem_of_In. apply (bool_decide_unpack _). vm_compute. exact I.
Qed.

(** X18: the keyword filter of [run] lets through every record with the
    letter r. The keywords are matched as substrings of the lowered text
    and [IT_KEYWORDS] holds the keyword ["r"]: a record whose title, or
    whose description, contains an [r] or an [R] is IT-related. *)
Theorem record_with_r_is_it_related (i : models.Internship) :
  contains "r" (lower (models.title i)) = true
  ∨ contains "r" (lower (models.description i)) = true →
  bot.it_related i = true.
Proof.
  intros H. unfold bot.it_related. apply orb_true_iff.
  destruct H as [H|H]; [left|right];
    (apply andb_true_iff; split; [|by apply is_it_related_with_r]).
  - by destruct (models.title i).
  - by destruct (models.description i).
Qed.

Lemma record_with_r_is_it_related_witness :
  bot.it_related
    (models.__init__ some_day "Marketing Intern" "Acme" "Pune, India"
       "https://example.com/jobs/4" "RemoteOK" None None ∅)
  = true.
Proof.
  apply record_with_r_is_it_related. left. vm_compute. reflexivity.
Defined.

(** X19: [is_it_related] ignores case, in the text and in the keywords:
    two texts with the same lowering and two keyword lists with the same
    lowerings get the same answer. *)
Theorem is_it_related_ignores_case (text text' : string)
    (keywords keywords' : list string) :
  lower text = lower text' →
  lower <$> keywords = lower <$> keywords' →
  helpers.is_it_related text keywords = helpers.is_it_related text' keywords'.
Proof.
  intros Htext Hkeywords. unfold helpers.is_it_related.
  rewrite <- (str_truthy_lower text), <- (str_truthy_lower text').
  by rewrite !existsb_lower, Htext, Hkeywords.
Qed.

Lemma is_it_related_ignores_case_witness :
  helpers.is_it_related "PYTHON Intern" ["Java"; "python"]
  = helpers.is_it_related "Python intern" ["JAVA"; "Python"].
Proof.
  apply is_it_related_ignores_case; reflexivity.
Defined.

(** ** Records *)

(** X20: what the constructor guarantees.  The title, the company, the
    location and the description of a record hold no character below code
    point 32 and no whitespace but the space (DEL and the controls from
    128 on may stay, as [clean_text] leaves them), and neither they nor
    the URL have whitespace at either end, whatever the arguments. *)
Theorem constructed_record_is_clean (clock : Z)
    (title company location url source : string)
    (posted_date : option datetime) (description : option string)
    (kwargs : dict) :
  let r := models.__init__ clock title company location url source
             posted_date description kwargs in
  Forall
    (fun field => Forall cleaned_char (chars field) ∧ strip field = field)
    [models.title r; models.company r; models.location r;
     models.description r]
  ∧ strip (models.url r) = models.url r.
Proof.
  cbn zeta. unfold models.__init__. cbn [models.title models.company
    models.location models.description models.url].
  split; [|apply strip_idempotent].
  repeat (constructor;
          [split; [apply clean_text_cleaned|apply clean_text_stripped]|]).
  constructor.
Qed.

(** ** The Remotive adapter *)

Section remotive.

Import remotive_fetcher.
Variable strptime : string -> option datetime.

Lemma get_str_blank (job_data : dict) (key : string) :
  job_data !! key = None
  ∨ (∃ s, job_data !! key = Some (VStr s) ∧ strip s = "") →
  get_str job_data key "" = Return "" ∨
  ∃ s, get_str job_data key "" = Return s ∧ strip s = "".
Proof.
  unfold get_str. intros [-> | (s & -> & Hs)]; [by left|]. right. eauto.
Qed.

(** X21: what [_parse_job] returns. It never raises. A record it returns
    has a non-empty URL without surrounding whitespace, the source
    [Remotive], the date [published_date] found (the instant of the call
    when there is none) and no metadata, so that its dictionary carries
    its own date and URL. It returns [None] for a job whose title,
    company name or URL is absent or blank. *)
Theorem parse_job_returns_usable_records (clock : Z) (job_data : dict) :
  ∃ parsed,
    _parse_job strptime clock job_data = Return parsed
    ∧ (∀ r, parsed = Some r →
         models.url r ≠ "" ∧ strip (models.url r) = models.url r
         ∧ models.source r = SOURCE_NAME
         ∧ models.posted_date r
           = default (utcnow clock) (published_date strptime job_data)
         ∧ models.metadata r = ∅
         ∧ plain r = true)
    ∧ (∀ key, key ∈ ["title"; "company_name"; "url"] →
         job_data !! key = None
         ∨ (∃ s, job_data !! key = Some (VStr s) ∧ strip s = "") →
         parsed = None).
Proof.
  unfold _parse_job, try_except.
  assert (∀ key, key ∈ ["title"; "company_name"; "url"] →
            key = "title" ∨ key = "company_name" ∨ key = "url") as Hkeys.
  { intros key Hkey. repeat (apply elem_of_cons in Hkey as [->|Hkey]); auto.
    by apply elem_of_nil in Hkey. }
  pose proof (get_str_blank job_data "title") as Htitle.
  pose proof (get_str_blank job_data "company_name") as Hcompany.
  pose proof (get_str_blank job_data "url") as Hurl.
  destruct (get_str job_data "title" "") as [title|];
    cbn [bind Exception].
  2:{ eexists. split; [done|]. split; [done|]. done. }
  destruct (get_str job_data "company_name" "") as [company|];
    cbn [bind Exception].
  2:{ eexists. split; [done|]. split; [done|]. done. }
  destruct (get_str job_data "url" "") as [url|];
    cbn [bind Exception].
  2:{ eexists. split; [done|]. split; [done|]. done. }
  destruct (negb _) eqn:Hblank.
  { eexists. split; [done|]. split; [done|]. done. }
  apply negb_false_iff in Hblank.
  apply andb_true_iff in Hblank as [Hblank Hu].
  apply andb_true_iff in Hblank as [Ht Hc].
  assert (∀ s, str_truthy (strip s) = true → strip s ≠ "") as Hne.
  { intros s Hs Heq. by rewrite Heq in Hs. }
  apply Hne in Ht, Hc, Hu.
  assert (∀ parsed : option models.Internship,
            ∀ key, key ∈ ["title"; "company_name"; "url"] →
              job_data !! key = None
              ∨ (∃ s, job_data !! key = Some (VStr s) ∧ strip s = "") →
              parsed = None) as Hnone.
  { intros parsed key Hkey Hk. exfalso.
    destruct (Hkeys key Hkey) as [-> | [-> | ->] ].
    - destruct (Htitle Hk) as [Heq|(s & Heq & Hs)]; injection Heq as ->; done.
    - destruct (Hcompany Hk) as [Heq|(s & Heq & Hs)]; injection Heq as ->; done.
    - destruct (Hurl Hk) as [Heq|(s & Heq & Hs)]; injection Heq as ->; done. }
  match goal with |- context [bind ?m _] => destruct m as [location|] end;
    cbn [bind Exception].
  2:{ eexists. split; [done|]. split; [done|]. apply Hnone. }
  match goal with |- context [bind ?m _] => destruct m as [description|] end;
    cbn [bind Exception].
  2:{ eexists. split; [done|]. split; [done|]. apply Hnone. }
  eexists. split; [done|]. split; [|apply Hnone].
  intros r [= <-]. unfold models.__init__.
  cbn [models.url models.source models.posted_date models.metadata].
  rewrite !strip_idempotent.
  split; [done|]. split; [done|]. split; [done|]. split; [done|].
  split; reflexivity.
Qed.

End remotive.

(** ** Initialisation of the seen-jobs module *)

Section initialisation.

Import seen_jobs.
Implicit Types (st : state) (remote : stream) (init : pyresult unit).

Lemma load_seen_jobs_local remote st :
  _db st = None →
  ∃ st',
    load_seen_jobs remote st = (st', Return tt)
    ∧ _seen_jobs_cache st'
      = _seen_jobs_cache st ∪ local_ids (_LOCAL_SEEN_JOBS_FILE st)
    ∧ _db st' = None
    ∧ _LOCAL_SEEN_JOBS_FILE st' = _LOCAL_SEEN_JOBS_FILE st
    ∧ trace st' = trace st.
Proof.
  intros Hdb. unfold load_seen_jobs. destruct st as [cache db f tr].
  cbn in Hdb. subst db.
  unfold and_then, try_, gets, pure, raise, Exception. cbn [_db].
  destruct f as [|[L|]|]; unfold modify; cbn;
    (eexists; split; [reflexivity|]); cbn;
    rewrite ?update_union; (split; [set_solver | done]).
Qed.

(** X22: with a Firebase app already there, the seen-jobs module stays
    local. [initialize_seen_jobs] creates its client only when no app
    exists; called when one exists (and the module has no client yet) it
    leaves [_db] at [None], calls the remote store not at all, and adds
    to the cache the identities of the local file only. *)
Theorem initialize_seen_jobs_with_existing_app init remote st :
  _db st = None →
  ∃ st',
    initialize_seen_jobs true init remote st = (st', Return tt)
    ∧ _db st' = None
    ∧ _seen_jobs_cache st'
      = _seen_jobs_cache st ∪ local_ids (_LOCAL_SEEN_JOBS_FILE st)
    ∧ trace st' = trace st.
Proof.
  intros Hdb. unfold initialize_seen_jobs. unfold and_then at 1.
  cbn [negb]. unfold try_ at 1. unfold pure at 1.
  destruct (load_seen_jobs_local remote st Hdb)
    as (st' & Hrun & Hcache & Hdb' & _ & Htrace).
  exists st'. by rewrite Hrun.
Qed.

Lemma initialize_seen_jobs_with_existing_app_witness :
  ∃ st',
    initialize_seen_jobs true (Return tt) (Streamed ["a"])
      (set_file (Stored (JList ["b"])) new_module)
    = (st', Return tt)
    ∧ _db st' = None
    ∧ _seen_jobs_cache st'
      = _seen_jobs_cache (set_file (Stored (JList ["b"])) new_module)
        ∪ local_ids
            (_LOCAL_SEEN_JOBS_FILE (set_file (Stored (JList ["b"])) new_module))
    ∧ trace st' = trace (set_file (Stored (JList ["b"])) new_module).
Proof.
  apply initialize_seen_jobs_with_existing_app. reflexivity.
Defined.

End initialisation.
